(** * generate_data.py: from Classes.csv to data.json

    A shallow embedding of [src/generate_data.py] and the properties of its
    specification.

    Conventions of the model.
    - A Python [str] is a [string]; each [ascii] stands for one code point
      below 256 (ASCII and Latin-1).  [str.lower] and [str.strip] follow
      CPython's tables on that range.  What is claimed of [normalize_key]
      for every string is proved in [Uni], on lists of code points of any
      size, of which this is the part below 256 ([codes_normalize_key]).
    - A Python [int] is a [Z]; [int(s)] is decimal conversion with the
      interpreter's limit on the number of digits, at its default value.
    - A [dict] is an association list in insertion order, because the order
      of the keys is visible in the file that [json.dump] writes.
    - Exceptions are values of [error]; a computation that can raise returns
      a [result]. *)

From Stdlib Require Import ZArith NArith List Bool Ascii String Lia.
From Stdlib Require Import Numbers.DecimalString.
From Stdlib Require Numbers.DecimalPos.
Import ListNotations.

Local Open Scope string_scope.
Local Open Scope list_scope.

(** ** Python strings *)

Module Str.

Definition code (c : ascii) : N := N_of_ascii c.

Definition between (lo hi : N) (c : ascii) : bool :=
  (N.leb lo (code c) && N.leb (code c) hi)%bool.

(** Code points with a distinct lowercase form: A-Z, and U+00C0..U+00DE
    except the multiplication sign U+00D7. *)
Definition is_upper (c : ascii) : bool :=
  (between 65 90 c
   || (between 192 222 c && negb (N.eqb (code c) 215)))%bool.

Definition lower_char (c : ascii) : ascii :=
  if is_upper c then ascii_of_N (code c + 32) else c.

(** [str.isspace] on one code point: TAB..CR, FS..US, SPACE, NEL, NBSP. *)
Definition isspace (c : ascii) : bool :=
  (between 9 13 c || between 28 32 c
   || N.eqb (code c) 133 || N.eqb (code c) 160)%bool.

Definition is_digit (c : ascii) : bool := between 48 57 c.

Definition digit_value (c : ascii) : Z := Z.of_N (code c) - 48.

Fixpoint flat_map (f : ascii -> string) (s : string) : string :=
  match s with
  | EmptyString => EmptyString
  | String c s' => f c ++ flat_map f s'
  end.

Fixpoint all_chars (p : ascii -> bool) (s : string) : bool :=
  match s with
  | EmptyString => true
  | String c s' => (p c && all_chars p s')%bool
  end.

Definition is_empty (s : string) : bool :=
  match s with EmptyString => true | String _ _ => false end.

(** [s.lower()] *)
Definition lower (s : string) : string :=
  flat_map (fun c => String (lower_char c) EmptyString) s.

(** [s.replace(old, new)] for a pattern [old] of one character. *)
Definition replace (old : ascii) (new : string) (s : string) : string :=
  flat_map (fun c => if Ascii.eqb c old then new else String c EmptyString) s.

Fixpoint lstrip (s : string) : string :=
  match s with
  | EmptyString => EmptyString
  | String c s' => if isspace c then lstrip s' else s
  end.

Fixpoint rstrip (s : string) : string :=
  match s with
  | EmptyString => EmptyString
  | String c s' =>
      let r := rstrip s' in
      if (isspace c && is_empty r)%bool then EmptyString else String c r
  end.

(** [s.strip()] *)
Definition strip (s : string) : string := rstrip (lstrip s).

End Str.

(** ** Exceptions *)

Inductive error : Type :=
| FileNotFoundError
| KeyError
| AttributeError
| ValueError
| OSError
| CsvError
| UnicodeDecodeError.

Inductive result (A : Type) : Type :=
| Ok (a : A)
| Raise (e : error).

Arguments Ok {A} a.
Arguments Raise {A} e.

Definition bind {A B : Type} (m : result A) (k : A -> result B) : result B :=
  match m with
  | Ok a => k a
  | Raise e => Raise e
  end.

Notation "x <- m ;; k" := (bind m (fun x => k))
  (at level 61, m at next level, right associativity).

(** ** [int(s)] on an already stripped string

    The scanning loop of the decimal conversion: an optional sign, then
    digits, where one underscore may stand between two digits. *)

Fixpoint scan_digits (acc : Z) (after_digit : bool) (s : string) : option Z :=
  match s with
  | EmptyString => if after_digit then Some acc else None
  | String c s' =>
      if Str.is_digit c then scan_digits (10 * acc + Str.digit_value c) true s'
      else if Ascii.eqb c "_"
           then (if after_digit then scan_digits acc false s' else None)
           else None
  end.

Definition parse_int (s : string) : option Z :=
  match s with
  | EmptyString => None
  | String c s' =>
      if Ascii.eqb c "+" then scan_digits 0 false s'
      else if Ascii.eqb c "-" then option_map Z.opp (scan_digits 0 false s')
      else scan_digits 0 false s
  end.

(** [sys.get_int_max_str_digits()], at the default of the interpreter. *)
Definition max_str_digits : nat := 4300.

(** The digits of the text, which the conversion counts while it scans;
    sign and underscores are not counted, leading zeros are. *)
Fixpoint digit_count (s : string) : nat :=
  match s with
  | EmptyString => O
  | String c s' =>
      if Str.is_digit c then S (digit_count s') else digit_count s'
  end.

(** [int(s)]: a text that is no number, or has more digits than the limit,
    raises [ValueError]. *)
Definition int (s : string) : result Z :=
  match parse_int s with
  | Some z =>
      if Nat.ltb max_str_digits (digit_count s) then Raise ValueError
      else Ok z
  | None => Raise ValueError
  end.

(** ** The functions of the script *)

(** [normalize_key(name)] *)
Definition normalize_key (name : string) : string :=
  Str.strip
    (Str.replace "." ""
       (Str.replace "|" ""
          (Str.replace "-" "_"
             (Str.replace " " "_" (Str.lower name))))).

(** ** Python dictionaries: association lists in insertion order *)

Module Dict.

Definition t (V : Type) : Type := list (string * V).

Section Ops.
Context {V : Type}.

Definition empty : t V := [].

(** [d.get(k)] *)
Fixpoint get (k : string) (d : t V) : option V :=
  match d with
  | [] => None
  | (k', v) :: d' => if String.eqb k k' then Some v else get k d'
  end.

(** [k in d] *)
Definition contains (k : string) (d : t V) : bool :=
  match get k d with Some _ => true | None => false end.

(** In-place change of the value stored under [k]; the key keeps its
    position. *)
Fixpoint adjust (f : V -> V) (k : string) (d : t V) : t V :=
  match d with
  | [] => []
  | (k', v) :: d' =>
      if String.eqb k k' then (k', f v) :: d' else (k', v) :: adjust f k d'
  end.

(** [d[k] = v]: a new key goes to the end. *)
Definition setitem (k : string) (v : V) (d : t V) : t V :=
  if contains k d then adjust (fun _ => v) k d else d ++ [(k, v)].

Definition keys (d : t V) : list string := map fst d.

(** [d.values()] *)
Definition values (d : t V) : list V := map snd d.

End Ops.

End Dict.

(** [len(x)] and [sum(xs)] *)
Definition len {A : Type} (l : list A) : Z := Z.of_nat (List.length l).

Definition sum (l : list Z) : Z := fold_left Z.add l 0%Z.

(** ** The data model *)

Record Info : Type := mkInfo
  { info_name : string;
    info_description : string }.

Record Playlist : Type := mkPlaylist
  { pl_name : string;
    pl_playlist_id : string;
    pl_description : string;
    pl_video_count : Z;
    pl_latest_video_id : option string }.

Record Text : Type := mkText
  { text_name_of : string;
    text_description : string;
    playlists : list Playlist }.

Record Category : Type := mkCategory
  { cat_name : string;
    cat_description : string;
    texts : Dict.t Text }.

Record Batch : Type := mkBatch
  { batch_name_of : string;
    batch_description : string;
    categories : Dict.t Category }.

Record SiteInfo : Type := mkSiteInfo
  { title : string;
    site_description : string;
    last_updated : string }.

Record Metadata : Type := mkMetadata
  { total_batches : Z;
    total_categories : Z;
    total_texts : Z;
    total_playlists : Z;
    youtube_api_version : string;
    cache_duration : Z;
    update_frequency : string }.

(** [data]; [metadata] is [None] while it still is the empty dict of the
    initialisation. *)
Record Document : Type := mkDocument
  { site_info : SiteInfo;
    batches : Dict.t Batch;
    metadata : option Metadata }.

(** [create_batch_structure()] *)
Definition create_batch_structure : Batch := mkBatch "" "" Dict.empty.

(** [create_category_structure()] *)
Definition create_category_structure : Category := mkCategory "" "" Dict.empty.

Definition batch_info : Dict.t Info :=
  [ ("Dhanyosi", mkInfo "Dhanyosi Batch" "2021-2025");
    ("Tattvamasi", mkInfo "Tattvamasi Batch" "Coimbatore Batch");
    ("Jignasu", mkInfo "Jignasu Batch" "2024-2028");
    ("Miscellaneous",
      mkInfo "Miscellaneous" "Special programs and general spiritual content") ].

(** [get_batch_info(batch_name)] *)
Definition get_batch_info (batch_name : string) : Info :=
  match Dict.get batch_name batch_info with
  | Some i => i
  | None => mkInfo batch_name ""
  end.

Definition category_info : Dict.t Info :=
  [ ("Upanishad",
      mkInfo "Upanishads"
        "Ancient wisdom texts - the culmination of Vedic knowledge");
    ("Bhagawad Gita",
      mkInfo "Bhagavad Gita" "The song of the Lord - practical spirituality");
    ("Prakaranam", mkInfo "Prakaranam" "Introductory and foundational texts");
    ("Brahmasutram",
      mkInfo "Brahmasutram" "The aphorisms of Brahman - systematic philosophy");
    ("Satsang", mkInfo "Satsang" "Question and answer sessions, discussions") ].

(** [get_category_info(category_name)] *)
Definition get_category_info (category_name : string) : Info :=
  match Dict.get category_name category_info with
  | Some i => i
  | None => mkInfo category_name ""
  end.

(** ** One row of [csv.DictReader]

    [row[column]] raises [KeyError] when the header lacks the column, is
    [None] when the line is too short to reach the column, and is a string
    otherwise. *)

Inductive cell : Type :=
| NoColumn
| NoValue
| Value (s : string).

Record Row : Type := mkRow
  { col_Batch : cell;
    col_Category : cell;
    col_Text : cell;
    col_Video_Count : cell;
    col_Playlist : cell;
    col_Is_Ongoing : cell;
    col_Latest_Link : cell }.

(** [row[column].strip()] *)
Definition stripped (c : cell) : result string :=
  match c with
  | NoColumn => Raise KeyError
  | NoValue => Raise AttributeError
  | Value s => Ok (Str.strip s)
  end.

(** The local variables that the loop body binds from a row. *)
Record Fields : Type := mkFields
  { batch_name : string;
    category_name : string;
    text_name : string;
    video_count : Z;
    playlist_id : string;
    is_ongoing : bool;
    latest_link : option string }.

(** [int(row['Video Count'].strip()) if row['Video Count'].strip() else 0] *)
Definition read_video_count (c : cell) : result Z :=
  test <- stripped c ;;
  if Str.is_empty test then Ok 0%Z
  else (s <- stripped c ;; int s).

(** [row['Latest Link'].strip() if row['Latest Link'].strip() else None] *)
Definition read_latest_link (c : cell) : result (option string) :=
  test <- stripped c ;;
  if Str.is_empty test then Ok None
  else (s <- stripped c ;; Ok (Some s)).

(** Lines 98-104. *)
Definition read_row (row : Row) : result Fields :=
  batch_name <- stripped (col_Batch row) ;;
  category_name <- stripped (col_Category row) ;;
  text_name <- stripped (col_Text row) ;;
  video_count <- read_video_count (col_Video_Count row) ;;
  playlist_id <- stripped (col_Playlist row) ;;
  ongoing <- stripped (col_Is_Ongoing row) ;;
  latest_link <- read_latest_link (col_Latest_Link row) ;;
  Ok (mkFields batch_name category_name text_name video_count playlist_id
        (String.eqb (Str.lower ongoing) "yes") latest_link).

(** ** The loop body, lines 106-164 *)

(** An element of [categories_to_add]. *)
Record Target : Type := mkTarget
  { key : string;
    name : string;
    description : string }.

(** Lines 113-131. *)
Definition categories_to_add (f : Fields) : list Target :=
  let natural_category_key := normalize_key (category_name f) in
  let natural_category_info := get_category_info (category_name f) in
  [ mkTarget natural_category_key
      (info_name natural_category_info)
      (info_description natural_category_info) ]
  ++ (if is_ongoing f
      then [ mkTarget "ongoing" "Ongoing"
               "Current studies across different texts" ]
      else []).

(** [batch.update(batch_info)] *)
Definition update (b : Batch) (info : Info) : Batch :=
  mkBatch (info_name info) (info_description info) (categories b).

(** Lines 106-111. *)
Definition ensure_batch (f : Fields) (bs : Dict.t Batch) : Dict.t Batch :=
  let batch_key := normalize_key (batch_name f) in
  if Dict.contains batch_key bs then bs
  else
    Dict.setitem batch_key
      (update create_batch_structure (get_batch_info (batch_name f)))
      bs.

(** Lines 137-141. *)
Definition ensure_category (c : Target) (cs : Dict.t Category)
  : Dict.t Category :=
  if Dict.contains (key c) cs then cs
  else
    Dict.setitem (key c)
      (mkCategory (name c) (description c) (texts create_category_structure))
      cs.

(** Lines 143-150. *)
Definition ensure_text (f : Fields) (ts : Dict.t Text) : Dict.t Text :=
  let text_key := normalize_key (text_name f) in
  if Dict.contains text_key ts then ts
  else
    Dict.setitem text_key
      (mkText (text_name f) (text_name f ++ " study") [])
      ts.

(** Lines 152-162. *)
Definition playlist_entry (f : Fields) (category_key : string) : Playlist :=
  mkPlaylist (text_name f) (playlist_id f) (text_name f ++ " study")
    (video_count f)
    (match latest_link f with
     | Some link =>
         if (is_ongoing f && String.eqb category_key "ongoing")%bool
         then Some link else None
     | None => None
     end).

Definition append_playlist (p : Playlist) (t : Text) : Text :=
  mkText (text_name_of t) (text_description t) (playlists t ++ [p]).

Definition with_texts (g : Dict.t Text -> Dict.t Text) (c : Category)
  : Category :=
  mkCategory (cat_name c) (cat_description c) (g (texts c)).

Definition with_categories (g : Dict.t Category -> Dict.t Category)
  (b : Batch) : Batch :=
  mkBatch (batch_name_of b) (batch_description b) (g (categories b)).

Definition with_batches (g : Dict.t Batch -> Dict.t Batch) (d : Document)
  : Document :=
  mkDocument (site_info d) (g (batches d)) (metadata d).

(** One round of [for category_info in categories_to_add], lines 134-164,
    on the categories of the current batch. *)
Definition add_to_category (f : Fields) (c : Target) (cs : Dict.t Category)
  : Dict.t Category :=
  Dict.adjust
    (with_texts (fun ts =>
       Dict.adjust (append_playlist (playlist_entry f (key c)))
         (normalize_key (text_name f)) (ensure_text f ts)))
    (key c) (ensure_category c cs).

(** The whole loop body for the fields of one row. *)
Definition add_record (f : Fields) (d : Document) : Document :=
  with_batches (fun bs =>
    Dict.adjust
      (with_categories (fun cs =>
         fold_left (fun cs c => add_to_category f c cs)
           (categories_to_add f) cs))
      (normalize_key (batch_name f)) (ensure_batch f bs)) d.

(** [for row in reader], lines 97-164, when the reader hands out every
    row of the file; [process_reader] below is the loop over a reader that
    may itself raise. *)
Fixpoint process_rows (rows : list Row) (d : Document) : result Document :=
  match rows with
  | [] => Ok d
  | row :: rows' =>
      f <- read_row row ;;
      process_rows rows' (add_record f d)
  end.

(** Lines 83-91; [today] is [datetime.now().strftime("%Y-%m-%d")]. *)
Definition initial_data (today : string) : Document :=
  mkDocument (mkSiteInfo "Brahma Vidya Mandir" "Learning Portal" today)
    Dict.empty None.

(** Lines 166-189. *)
Definition calculate_metadata (d : Document) : Metadata :=
  let all_batches := Dict.values (batches d) in
  let all_categories :=
    List.flat_map (fun batch => Dict.values (categories batch)) all_batches in
  let all_texts :=
    List.flat_map (fun category => Dict.values (texts category))
      all_categories in
  mkMetadata
    (len (batches d))
    (sum (map (fun batch => len (categories batch)) all_batches))
    (sum (map (fun category => len (texts category)) all_categories))
    (sum (map (fun text => len (playlists text)) all_texts))
    "v3" 3600 "daily".

Definition with_metadata (m : Metadata) (d : Document) : Document :=
  mkDocument (site_info d) (batches d) (Some m).

(** Lines 83-189: the document that is handed to [json.dump]. *)
Definition build_data (today : string) (rows : list Row) : result Document :=
  d <- process_rows rows (initial_data today) ;;
  Ok (with_metadata (calculate_metadata d) d).

(** ** [json.dump(data, file, indent=2, ensure_ascii=False)] *)

Module Json.

#[local] Unset Elimination Schemes.

Inductive value : Type :=
| JString (s : string)
| JInt (z : Z)
| JObject (items : list (string * value))
| JArray (items : list value).

#[local] Set Elimination Schemes.

Definition quote : string := String (ascii_of_N 34) "".
Definition newline : string := String (ascii_of_N 10) "".

Definition hex_digit (n : N) : string :=
  String.substring (N.to_nat n) 1 "0123456789abcdef".

(** The replacement of one character inside a string literal: the named
    escapes, [\u00xx] for the other control characters, and the character
    itself otherwise. *)
Definition escape_char (c : ascii) : string :=
  let n := N_of_ascii c in
  if N.eqb n 92 then "\\"
  else if N.eqb n 34 then "\" ++ quote
  else if N.eqb n 8 then "\b"
  else if N.eqb n 12 then "\f"
  else if N.eqb n 10 then "\n"
  else if N.eqb n 13 then "\r"
  else if N.eqb n 9 then "\t"
  else if N.ltb n 32
       then "\u00" ++ hex_digit (N.div n 16) ++ hex_digit (N.modulo n 16)
       else String c "".

Definition encode_basestring (s : string) : string :=
  quote ++ Str.flat_map escape_char s ++ quote.

Definition int_str (z : Z) : string := NilZero.string_of_int (Z.to_int z).

Fixpoint indent (level : nat) : string :=
  match level with
  | O => ""
  | S n => "  " ++ indent n
  end.

Definition newline_indent (level : nat) : string := newline ++ indent level.

(** The text of a value that starts at nesting depth [level]. *)
Fixpoint encode (level : nat) (v : value) : string :=
  match v with
  | JString s => encode_basestring s
  | JInt z => int_str z
  | JObject [] => "{}"
  | JObject ((k, x) :: items) =>
      ("{" ++ newline_indent (S level)
       ++ encode_basestring k ++ ": " ++ encode (S level) x
       ++ (fix rest (l : list (string * value)) : string :=
             match l with
             | [] => ""
             | (k', y) :: l' =>
                 "," ++ newline_indent (S level)
                 ++ encode_basestring k' ++ ": " ++ encode (S level) y
                 ++ rest l'
             end) items
       ++ newline_indent level ++ "}")%string
  | JArray [] => "[]"
  | JArray (x :: items) =>
      ("[" ++ newline_indent (S level) ++ encode (S level) x
       ++ (fix rest (l : list value) : string :=
             match l with
             | [] => ""
             | y :: l' =>
                 "," ++ newline_indent (S level) ++ encode (S level) y
                 ++ rest l'
             end) items
       ++ newline_indent level ++ "]")%string
  end.

Definition object_of {V : Type} (f : V -> value) (d : Dict.t V) : value :=
  JObject (map (fun kv => (fst kv, f (snd kv))) d).

Definition of_playlist (p : Playlist) : value :=
  JObject
    ([ ("name", JString (pl_name p));
       ("playlist_id", JString (pl_playlist_id p));
       ("description", JString (pl_description p));
       ("video_count", JInt (pl_video_count p)) ]
     ++ match pl_latest_video_id p with
        | Some link => [ ("latest_video_id", JString link) ]
        | None => []
        end).

Definition of_text (t : Text) : value :=
  JObject
    [ ("name", JString (text_name_of t));
      ("description", JString (text_description t));
      ("playlists", JArray (map of_playlist (playlists t))) ].

Definition of_category (c : Category) : value :=
  JObject
    [ ("name", JString (cat_name c));
      ("description", JString (cat_description c));
      ("texts", object_of of_text (texts c)) ].

Definition of_batch (b : Batch) : value :=
  JObject
    [ ("name", JString (batch_name_of b));
      ("description", JString (batch_description b));
      ("categories", object_of of_category (categories b)) ].

Definition of_site_info (s : SiteInfo) : value :=
  JObject
    [ ("title", JString (title s));
      ("description", JString (site_description s));
      ("last_updated", JString (last_updated s)) ].

Definition of_metadata (m : option Metadata) : value :=
  match m with
  | None => JObject []
  | Some m =>
      JObject
        [ ("total_batches", JInt (total_batches m));
          ("total_categories", JInt (total_categories m));
          ("total_texts", JInt (total_texts m));
          ("total_playlists", JInt (total_playlists m));
          ("youtube_api_version", JString (youtube_api_version m));
          ("cache_duration", JInt (cache_duration m));
          ("update_frequency", JString (update_frequency m)) ]
  end.

Definition of_document (d : Document) : value :=
  JObject
    [ ("site_info", of_site_info (site_info d));
      ("batches", object_of of_batch (batches d));
      ("metadata", of_metadata (metadata d)) ].

(** The characters that [json.dump] sends to the file. *)
Definition dumps (d : Document) : string := encode 0 (of_document d).

End Json.

(** ** The run of the script

    The two files of the working directory; [None] is a file that does not
    exist.  [Classes.csv] is held as the rows that [csv.DictReader] yields. *)

Record Files : Type := mkFiles
  { classes_csv : option (list Row);
    data_json : option string }.

(** What the operating system does with the output file during the run. *)
Inductive Disk : Type :=
| Healthy
| OpenRefused
| FullAfter (n : nat).

(** Lines 191-193.  [open('data.json', 'w')] truncates the file before the
    first character is written; characters written before a failure stay
    in the file. *)
Definition write_output (disk : Disk) (text : string) (fs : Files)
  : Files * result unit :=
  match disk with
  | OpenRefused => (fs, Raise OSError)
  | Healthy => (mkFiles (classes_csv fs) (Some text), Ok tt)
  | FullAfter n =>
      if Nat.ltb n (String.length text)
      then (mkFiles (classes_csv fs) (Some (String.substring 0 n text)),
            Raise OSError)
      else (mkFiles (classes_csv fs) (Some text), Ok tt)
  end.

(** [generate_data_json()] *)
Definition generate_data_json (today : string) (disk : Disk) (fs : Files)
  : Files * result unit :=
  match classes_csv fs with
  | None => (fs, Raise FileNotFoundError)
  | Some rows =>
      match build_data today rows with
      | Raise e => (fs, Raise e)
      | Ok data => write_output disk (Json.dumps data) fs
      end
  end.

(** ** [normalize_key] on strings of any code points

    A [str] as a list of code points, with [str.strip] on the whole
    white-space set of Python and [str.lower] as the interpreter computes
    it: capital sigma (U+03A3) by its place in the word, every other code
    point by the lowercase table.  The table and the two character
    classes that decide the place of a sigma are data of the interpreter;
    they are taken as a parameter. *)

Module Uni.

Local Open Scope N_scope.

Definition str : Type := list N.

Definition within (lo hi c : N) : bool := (N.leb lo c && N.leb c hi)%bool.

(** [str.isspace] of one code point. *)
Definition isspace (c : N) : bool :=
  (within 9 13 c || within 28 32 c || N.eqb c 133 || N.eqb c 160
   || N.eqb c 5760 || within 8192 8202 c || N.eqb c 8232 || N.eqb c 8233
   || N.eqb c 8239 || N.eqb c 8287 || N.eqb c 12288)%bool.

Fixpoint lstrip (s : str) : str :=
  match s with
  | [] => []
  | c :: s' => if isspace c then lstrip s' else s
  end.

Fixpoint rstrip (s : str) : str :=
  match s with
  | [] => []
  | c :: s' =>
      match rstrip s' with
      | [] => if isspace c then [] else [c]
      | r => c :: r
      end
  end.

(** [s.strip()] *)
Definition strip (s : str) : str := rstrip (lstrip s).

(** [s.replace(old, new)] for a pattern [old] of one code point. *)
Definition replace (old : N) (new : str) (s : str) : str :=
  List.flat_map (fun c => if N.eqb c old then new else [c]) s.

(** The tables of the interpreter. *)
Record casing : Type := mkCasing
  { to_lower_full : N -> list N;
    is_cased : N -> bool;
    is_case_ignorable : N -> bool }.

Definition capital_sigma : N := 931.
Definition final_sigma : N := 962.
Definition small_sigma : N := 963.

Fixpoint first_not_ignorable (T : casing) (s : str) : option N :=
  match s with
  | [] => None
  | c :: s' =>
      if is_case_ignorable T c then first_not_ignorable T s' else Some c
  end.

(** The lowercase of a capital sigma that has [before] to its left, nearest
    code point first, and [after] to its right: the final form after a
    cased letter when no cased letter follows. *)
Definition lower_sigma (T : casing) (before after : str) : N :=
  if (match first_not_ignorable T before with
      | Some c => is_cased T c
      | None => false
      end
      && match first_not_ignorable T after with
         | Some c => negb (is_cased T c)
         | None => true
         end)%bool
  then final_sigma else small_sigma.

Fixpoint lower_from (T : casing) (before : str) (s : str) : str :=
  match s with
  | [] => []
  | c :: s' =>
      (if N.eqb c capital_sigma then [lower_sigma T before s']
       else to_lower_full T c)
      ++ lower_from T (c :: before) s'
  end.

(** [s.lower()] *)
Definition lower (T : casing) (s : str) : str := lower_from T [] s.

(** [normalize_key(name)] *)
Definition normalize_key (T : casing) (name : str) : str :=
  strip
    (replace 46 []
       (replace 124 []
          (replace 45 [95]
             (replace 32 [95] (lower T name))))).

(** A code point that [lower] leaves as it is wherever it stands. *)
Definition stable (T : casing) (c : N) : Prop :=
  to_lower_full T c = [c] /\ c <> capital_sigma.

(** What the lowercase table has to satisfy: lowercase forms have no
    lowercase form of their own, and neither has the underscore. *)
Definition lowercase_stable (T : casing) : Prop :=
  stable T 95 /\ stable T final_sigma /\ stable T small_sigma
  /\ forall c c', c <> capital_sigma -> In c' (to_lower_full T c) ->
       stable T c'.

(** What the four replacements together make of one code point. *)
Definition key_of_char (c : N) : str :=
  if (N.eqb c 32 || N.eqb c 45)%bool then [95]
  else if (N.eqb c 124 || N.eqb c 46)%bool then []
  else [c].

(** The tables on the code points below 256, and the lowercase form of
    the capital sigma; the other code points are left as they are. *)
Definition latin1 : casing :=
  mkCasing
    (fun c =>
       if (within 65 90 c || (within 192 222 c && negb (N.eqb c 215)))%bool
       then [(c + 32)%N]
       else if N.eqb c capital_sigma then [small_sigma] else [c])
    (fun c =>
       (within 65 90 c || within 97 122 c
        || (within 192 255 c && negb (N.eqb c 215) && negb (N.eqb c 247))
        || N.eqb c 170 || N.eqb c 181 || N.eqb c 186
        || within 931 931 c || within 962 963 c)%bool)
    (fun c =>
       (N.eqb c 39 || N.eqb c 46 || N.eqb c 58 || N.eqb c 94 || N.eqb c 96
        || N.eqb c 168 || N.eqb c 173 || N.eqb c 175 || N.eqb c 180
        || N.eqb c 183 || N.eqb c 184)%bool).

End Uni.

(** The code points of a string of the model on characters below 256. *)
Fixpoint codes (s : string) : Uni.str :=
  match s with
  | EmptyString => []
  | String c s' => N_of_ascii c :: codes s'
  end.

(** ** The loop over a reader that can raise

    What [next(reader)] does each time the loop asks for a row: it hands
    out a row, or it raises by itself ([UnicodeDecodeError] for bytes that
    are not UTF-8, [csv.Error] for a field over the field size limit of
    the [csv] module).  The list holds these events in the order in which
    they happen; the file is decoded in blocks, so a failure can come
    before rows that stand earlier in the file have been handed out. *)

Inductive fetched : Type :=
| Yields (row : Row)
| Fails (e : error).

(** [for row in reader], lines 97-164. *)
Fixpoint process_reader (events : list fetched) (d : Document)
  : result Document :=
  match events with
  | [] => Ok d
  | Fails e :: _ => Raise e
  | Yields row :: events' =>
      f <- read_row row ;;
      process_reader events' (add_record f d)
  end.

(** Lines 83-189 over such a reader. *)
Definition build_from_reader (today : string) (events : list fetched)
  : result Document :=
  d <- process_reader events (initial_data today) ;;
  Ok (with_metadata (calculate_metadata d) d).

(** [generate_data_json()] when [Classes.csv] can be opened, over such a
    reader. *)
Definition generate_from_reader (today : string) (disk : Disk)
  (events : list fetched) (fs : Files) : Files * result unit :=
  match build_from_reader today events with
  | Raise e => (fs, Raise e)
  | Ok data => write_output disk (Json.dumps data) fs
  end.

(** ** Definitions that follow the words of the specification *)

(** A run of decimal digits in which single underscores may separate two
    digits, with the number it denotes. *)
Inductive Digits : string -> Z -> Prop :=
| Digits_one (c : ascii) :
    Str.is_digit c = true ->
    Digits (String c "") (Str.digit_value c)
| Digits_more (s : string) (v : Z) (c : ascii) :
    Digits s v -> Str.is_digit c = true ->
    Digits (s ++ String c "") (10 * v + Str.digit_value c)
| Digits_group (s : string) (v : Z) (c : ascii) :
    Digits s v -> Str.is_digit c = true ->
    Digits (s ++ String "_" (String c "")) (10 * v + Str.digit_value c).

(** A numeric string and its integer value: digits with an optional sign. *)
Inductive Numeric : string -> Z -> Prop :=
| Numeric_plain (s : string) (v : Z) : Digits s v -> Numeric s v
| Numeric_plus (s : string) (v : Z) : Digits s v -> Numeric (String "+" s) v
| Numeric_minus (s : string) (v : Z) :
    Digits s v -> Numeric (String "-" s) (- v).

(** Every column of the row holds a string. *)
Definition has_value (c : cell) : bool :=
  match c with Value _ => true | _ => false end.

Definition well_shaped (row : Row) : bool :=
  (has_value (col_Batch row) && has_value (col_Category row)
   && has_value (col_Text row) && has_value (col_Video_Count row)
   && has_value (col_Playlist row) && has_value (col_Is_Ongoing row)
   && has_value (col_Latest_Link row))%bool.

(** A numeric string that [int] converts: not more digits than the
    limit. *)
Definition Readable (s : string) (v : Z) : Prop :=
  Numeric s v /\ digit_count s <= max_str_digits.

(** The Video Count field is neither blank nor a numeric string within
    the limit. *)
Definition bad_video_count (row : Row) : Prop :=
  exists s, col_Video_Count row = Value s
            /\ Str.strip s <> ""
            /\ forall v, ~ Readable (Str.strip s) v.

(** The chain of [normalize_key] before the final [strip]. *)
Definition key_body (name : string) : string :=
  Str.replace "." ""
    (Str.replace "|" ""
       (Str.replace "-" "_"
          (Str.replace " " "_" (Str.lower name)))).

(** A character that may occur in a key: its own lowercase form, and none
    of space, hyphen, pipe and period. *)
Definition key_char (c : ascii) : bool :=
  (Ascii.eqb (Str.lower_char c) c
   && negb (Ascii.eqb c " ") && negb (Ascii.eqb c "-")
   && negb (Ascii.eqb c "|") && negb (Ascii.eqb c "."))%bool.

(** [data['batches'][b]], [...['categories'][c]] and [...['texts'][t]],
    where they exist. *)
Definition find_batch (d : Document) (b : string) : option Batch :=
  Dict.get b (batches d).

Definition find_category (d : Document) (b c : string) : option Category :=
  match find_batch d b with
  | Some x => Dict.get c (categories x)
  | None => None
  end.

Definition find_text (d : Document) (b c t : string) : option Text :=
  match find_category d b c with
  | Some y => Dict.get t (texts y)
  | None => None
  end.

(** The playlist list of the text under the keys [b], [c], [t]; empty when
    there is no such text. *)
Definition playlists_at (d : Document) (b c t : string) : list Playlist :=
  match find_text d b c t with
  | Some z => playlists z
  | None => []
  end.

(** The keys of a record. *)
Definition batch_key (f : Fields) : string := normalize_key (batch_name f).
Definition natural_category_key (f : Fields) : string :=
  normalize_key (category_name f).
Definition text_key (f : Fields) : string := normalize_key (text_name f).

(** The entries that one record adds to the text under [b], [c], [t]: one
    for each of its target categories with key [c], in the order of the
    targets. *)
Definition entries_for (b c t : string) (f : Fields) : list Playlist :=
  if (String.eqb b (batch_key f) && String.eqb t (text_key f))%bool
  then
    map (fun target => playlist_entry f (key target))
      (filter (fun target => String.eqb c (key target)) (categories_to_add f))
  else [].

(** The copy of a record without, and with, the latest-video identifier. *)
Definition plain_entry (f : Fields) : Playlist :=
  mkPlaylist (text_name f) (playlist_id f) (text_name f ++ " study")
    (video_count f) None.

Definition ongoing_entry (f : Fields) : Playlist :=
  mkPlaylist (text_name f) (playlist_id f) (text_name f ++ " study")
    (video_count f) (latest_link f).

Definition at_keys (b c t b' c' t' : string) : bool :=
  (String.eqb b b' && String.eqb c c' && String.eqb t t')%bool.

(** The fan-out of one record as the specification words it: a plain copy
    in the natural category, and for an ongoing record a second copy, with
    the latest-video identifier, in the category "ongoing"; no other
    playlist list changes. *)
Definition fan_out (f : Fields) (d : Document) : Prop :=
  forall b c t,
    playlists_at (add_record f d) b c t
    = playlists_at d b c t
      ++ (if at_keys b c t (batch_key f) (natural_category_key f) (text_key f)
          then [plain_entry f] else [])
      ++ (if (is_ongoing f
              && at_keys b c t (batch_key f) "ongoing" (text_key f))%bool
          then [ongoing_entry f] else []).

(** The loop without the reading of the rows. *)
Definition add_records (fs : list Fields) (d : Document) : Document :=
  fold_left (fun d f => add_record f d) fs d.

Fixpoint read_rows (rows : list Row) : result (list Fields) :=
  match rows with
  | [] => Ok []
  | row :: rows' =>
      f <- read_row row ;;
      fs <- read_rows rows' ;;
      Ok (f :: fs)
  end.

(** The keys of a dictionary are pairwise distinct at every level. *)
Definition unique_text_keys (y : Category) : Prop :=
  NoDup (Dict.keys (texts y)).

Definition unique_category_keys (x : Batch) : Prop :=
  NoDup (Dict.keys (categories x))
  /\ Forall (fun cy => unique_text_keys (snd cy)) (categories x).

Definition unique_keys (d : Document) : Prop :=
  NoDup (Dict.keys (batches d))
  /\ Forall (fun bx => unique_category_keys (snd bx)) (batches d).

(** Direct enumeration of the nested structure: every category with its
    batch key, every text with its batch and category keys, every playlist
    entry with the keys of its text. *)
Definition all_batches (d : Document) : list (string * Batch) := batches d.

Definition all_categories (d : Document)
  : list (string * string * Category) :=
  List.flat_map
    (fun bx => map (fun cy => (fst bx, fst cy, snd cy)) (categories (snd bx)))
    (all_batches d).

Definition all_texts (d : Document)
  : list (string * string * string * Text) :=
  List.flat_map
    (fun bcy => map (fun tz => (fst (fst bcy), snd (fst bcy), fst tz, snd tz))
                  (texts (snd bcy)))
    (all_categories d).

Definition all_playlists (d : Document)
  : list (string * string * string * Playlist) :=
  List.flat_map
    (fun bctz => map (fun p => (fst bctz, p)) (playlists (snd bctz)))
    (all_texts d).

(** The node that a step finds or creates under a key. *)
Definition text_or_new (f : Fields) (ts : Dict.t Text) : Text :=
  match Dict.get (text_key f) ts with
  | Some z => z
  | None => mkText (text_name f) (text_name f ++ " study") []
  end.

Definition category_or_new (c : Target) (cs : Dict.t Category) : Category :=
  match Dict.get (key c) cs with
  | Some y => y
  | None => mkCategory (name c) (description c) Dict.empty
  end.

Definition batch_or_new (f : Fields) (bs : Dict.t Batch) : Batch :=
  match Dict.get (batch_key f) bs with
  | Some x => x
  | None => update create_batch_structure (get_batch_info (batch_name f))
  end.

(** The texts of a category after one round of the inner loop, and the
    categories of the batch after the whole inner loop. *)
Definition texts_step (f : Fields) (c : Target) (ts : Dict.t Text)
  : Dict.t Text :=
  Dict.adjust (append_playlist (playlist_entry f (key c)))
    (normalize_key (text_name f)) (ensure_text f ts).

Definition categories_step (f : Fields) (cs : Dict.t Category)
  : Dict.t Category :=
  fold_left (fun cs c => add_to_category f c cs) (categories_to_add f) cs.

(** The playlist list behind an optional node. *)
Definition text_playlists (z : option Text) : list Playlist :=
  match z with Some z => playlists z | None => [] end.

Definition category_playlists (y : option Category) (t : string)
  : list Playlist :=
  match y with
  | Some y => text_playlists (Dict.get t (texts y))
  | None => []
  end.

Definition batch_playlists (x : option Batch) (c t : string)
  : list Playlist :=
  match x with
  | Some x => category_playlists (Dict.get c (categories x)) t
  | None => []
  end.

(** A node is kept: same display name and description, and every node
    below it is still there and kept; a text only gains entries at the end
    of its list. *)
Definition text_kept (z z' : Text) : Prop :=
  text_name_of z' = text_name_of z
  /\ text_description z' = text_description z
  /\ exists more, playlists z' = playlists z ++ more.

Definition category_kept (y y' : Category) : Prop :=
  cat_name y' = cat_name y
  /\ cat_description y' = cat_description y
  /\ forall t z, Dict.get t (texts y) = Some z ->
       exists z', Dict.get t (texts y') = Some z' /\ text_kept z z'.

Definition batch_kept (x x' : Batch) : Prop :=
  batch_name_of x' = batch_name_of x
  /\ batch_description x' = batch_description x
  /\ forall c y, Dict.get c (categories x) = Some y ->
       exists y', Dict.get c (categories x') = Some y' /\ category_kept y y'.

Definition document_kept (d d' : Document) : Prop :=
  forall b x, find_batch d b = Some x ->
    exists x', find_batch d' b = Some x' /\ batch_kept x x'.

(** The counts as the specification words them: a sum over the batches of
    the number of categories, and so on down to the playlist lists. *)
Definition count_categories (d : Document) : nat :=
  list_sum (map (fun bx => List.length (categories (snd bx))) (batches d)).

Definition count_texts (d : Document) : nat :=
  list_sum
    (map (fun bx =>
            list_sum
              (map (fun cy => List.length (texts (snd cy)))
                 (categories (snd bx))))
       (batches d)).

Definition count_playlists (d : Document) : nat :=
  list_sum
    (map (fun bx =>
            list_sum
              (map (fun cy =>
                      list_sum
                        (map (fun tz => List.length (playlists (snd tz)))
                           (texts (snd cy))))
                 (categories (snd bx))))
       (batches d)).

(** The document with another date in [site_info]. *)
Definition with_date (today : string) (d : Document) : Document :=
  mkDocument
    (mkSiteInfo (title (site_info d)) (site_description (site_info d)) today)
    (batches d) (metadata d).

(** The text of the output before and after the quoted date. *)
Definition before_date (d : Document) : string :=
  "{" ++ Json.newline_indent 1
  ++ Json.encode_basestring "site_info" ++ ": "
  ++ "{" ++ Json.newline_indent 2
  ++ Json.encode_basestring "title" ++ ": "
  ++ Json.encode_basestring (title (site_info d))
  ++ "," ++ Json.newline_indent 2
  ++ Json.encode_basestring "description" ++ ": "
  ++ Json.encode_basestring (site_description (site_info d))
  ++ "," ++ Json.newline_indent 2
  ++ Json.encode_basestring "last_updated" ++ ": ".

Definition after_date (d : Document) : string :=
  Json.newline_indent 1 ++ "}"
  ++ "," ++ Json.newline_indent 1
  ++ Json.encode_basestring "batches" ++ ": "
  ++ Json.encode 1 (Json.object_of Json.of_batch (batches d))
  ++ "," ++ Json.newline_indent 1
  ++ Json.encode_basestring "metadata" ++ ": "
  ++ Json.encode 1 (Json.of_metadata (metadata d))
  ++ Json.newline_indent 0 ++ "}".



(** [cs[k]['texts'][t]], where it exists. *)
Definition get_text (cs : Dict.t Category) (k t : string) : option Text :=
  match Dict.get k cs with
  | Some y => Dict.get t (texts y)
  | None => None
  end.

(** The keys of [ks] that are not in [seen], each once, in the order of
    their first occurrence. *)
Fixpoint new_keys (seen : list string) (ks : list string) : list string :=
  match ks with
  | [] => []
  | k :: ks' =>
      if existsb (String.eqb k) seen then new_keys seen ks'
      else k :: new_keys (seen ++ [k]) ks'
  end.

(** Invariants of the loop, on lookups: no batch is without a category, no category without a text, no text
    without a playlist entry; every text is stored under the key of its
    display name and described as that name followed by " study". *)
Definition nothing_empty (d : Document) : Prop :=
  (forall b x, find_batch d b = Some x -> categories x <> [])
  /\ (forall b c y, find_category d b c = Some y -> texts y <> [])
  /\ (forall b c t z, find_text d b c t = Some z -> playlists z <> []).

Definition texts_named (d : Document) : Prop :=
  forall b c t z,
    find_text d b c t = Some z ->
    normalize_key (text_name_of z) = t
    /\ text_description z = (text_name_of z ++ " study")%string.

(** The sum of a measure over the values of a dictionary. *)
Definition total {V : Type} (g : V -> nat) (d : Dict.t V) : nat :=
  list_sum (map (fun kv => g (snd kv)) d).

(** The number of target categories of the records: one for each record
    and one more for each ongoing record. *)
Definition ongoing_records (fs : list Fields) : list Fields :=
  filter is_ongoing fs.

(** The number of playlist entries below a dictionary of texts, and below
    a dictionary of categories. *)
Definition playlists_in_texts (ts : Dict.t Text) : nat :=
  total (fun z => List.length (playlists z)) ts.

Definition playlists_in_categories (cs : Dict.t Category) : nat :=
  total (fun y => playlists_in_texts (texts y)) cs.

(** C10 as stated, for categories: a category that a step creates gets
    the table entry of the category name of the row. *)
Definition category_metadata_from_raw_name : Prop :=
  forall f d c y,
    find_category d (batch_key f) c = None ->
    find_category (add_record f d) (batch_key f) c = Some y ->
    cat_name y = info_name (get_category_info (category_name f))
    /\ cat_description y
       = info_description (get_category_info (category_name f)).

(** ** Sample inputs *)

Definition row_katha : Row :=
  mkRow (Value "Tattvamasi") (Value "Upanishad") (Value "Katha Upanishad")
    (Value "12") (Value "PL123") (Value "Yes") (Value "VID99").

Definition row_blank_count : Row :=
  mkRow (Value "Jignasu") (Value "Prakaranam") (Value "Tattva Bodha")
    (Value "  ") (Value "PL7") (Value "no") (Value "").


Definition row_lowercase_batch : Row :=
  mkRow (Value "tattvamasi") (Value "Upanishad") (Value "Kena Upanishad")
    (Value "3") (Value "PL9") (Value "no") (Value "").

Definition fields_blank_count : Fields :=
  mkFields "Jignasu" "Prakaranam" "Tattva Bodha" 0 "PL7" false None.

Definition row_satsang : Row :=
  mkRow (Value "jignasu") (Value "Satsang") (Value "Q-and-A")
    (Value "+1_0") (Value "PL8") (Value "YES") (Value " ").

(** A Video Count of 4301 digits, one more than [int] converts. *)
Fixpoint ones (n : nat) : string :=
  match n with
  | O => EmptyString
  | S n' => String "1" (ones n')
  end.

Definition long_count : string := ones (S max_str_digits).


Definition row_lowercase_category : Row :=
  mkRow (Value "Tattvamasi") (Value "upanishad") (Value "Kena Upanishad")
    (Value "3") (Value "PL9") (Value "no") (Value "").

(** A record whose natural category is itself called Ongoing. *)
Definition fields_named_ongoing : Fields :=
  mkFields "Jignasu" "Ongoing" "Gita" 5 "PL1" true (Some "VID1").

Definition fields_katha : Fields :=
  mkFields "Tattvamasi" "Upanishad" "Katha Upanishad" 12 "PL123" true
    (Some "VID99").

(** * Properties *)

(** ** Strings *)

Section StringFacts.

Lemma append_assoc (a b c : string) :
  ((a ++ b) ++ c = a ++ (b ++ c))%string.
Proof. induction a as [|x a IH]; simpl; [reflexivity | now rewrite IH]. Qed.

Lemma append_nil_r (a : string) : (a ++ "")%string = a.
Proof. induction a as [|x a IH]; simpl; [reflexivity | now rewrite IH]. Qed.

Lemma flat_map_app (f : ascii -> string) (a b : string) :
  Str.flat_map f (a ++ b) = (Str.flat_map f a ++ Str.flat_map f b)%string.
Proof.
  induction a as [|c a IH]; simpl; [reflexivity|].
  now rewrite IH, append_assoc.
Qed.

Lemma all_chars_app (p : ascii -> bool) (a b : string) :
  Str.all_chars p (a ++ b)
  = (Str.all_chars p a && Str.all_chars p b)%bool.
Proof.
  induction a as [|c a IH]; simpl; [reflexivity|].
  now rewrite IH, andb_assoc.
Qed.

Lemma all_chars_lstrip (p : ascii -> bool) (s : string) :
  Str.all_chars p s = true -> Str.all_chars p (Str.lstrip s) = true.
Proof.
  induction s as [|c s IH]; simpl; [easy|].
  intros H. apply andb_prop in H as [Hc Hs].
  destruct (Str.isspace c); [now apply IH|].
  simpl. now rewrite Hc, Hs.
Qed.

Lemma all_chars_rstrip (p : ascii -> bool) (s : string) :
  Str.all_chars p s = true -> Str.all_chars p (Str.rstrip s) = true.
Proof.
  induction s as [|c s IH]; simpl; [easy|].
  intros H. apply andb_prop in H as [Hc Hs].
  destruct (Str.isspace c && Str.is_empty (Str.rstrip s))%bool; [easy|].
  simpl. now rewrite Hc, IH.
Qed.

Lemma rstrip_idem (s : string) : Str.rstrip (Str.rstrip s) = Str.rstrip s.
Proof.
  induction s as [|c s IH]; simpl; [reflexivity|].
  destruct (Str.isspace c && Str.is_empty (Str.rstrip s))%bool eqn:E;
    [reflexivity|].
  simpl. now rewrite IH, E.
Qed.

Lemma lstrip_head (s : string) :
  match Str.lstrip s with
  | EmptyString => True
  | String c _ => Str.isspace c = false
  end.
Proof.
  induction s as [|c s IH]; simpl; [exact I|].
  destruct (Str.isspace c) eqn:E; [exact IH | exact E].
Qed.

Lemma strip_idem (s : string) : Str.strip (Str.strip s) = Str.strip s.
Proof.
  unfold Str.strip.
  pose proof (lstrip_head s) as H.
  destruct (Str.lstrip s) as [|c r]; [reflexivity|].
  simpl. rewrite H. simpl. rewrite H. simpl.
  now rewrite rstrip_idem, H.
Qed.

Lemma strip_empty_iff (s : string) :
  Str.is_empty (Str.strip s) = true <-> Str.strip s = "".
Proof.
  destruct (Str.strip s); simpl; split; congruence.
Qed.

End StringFacts.

(** ** The key normalizer *)

Section NormalizeKey.

Lemma normalize_key_unfold (s : string) :
  normalize_key s = Str.strip (key_body s).
Proof. reflexivity. Qed.

Lemma key_body_cons (c : ascii) (s : string) :
  key_body (String c s) = (key_body (String c "") ++ key_body s)%string.
Proof.
  unfold key_body, Str.replace, Str.lower.
  change (String c s) with (String c "" ++ s)%string.
  now rewrite !flat_map_app.
Qed.

Lemma key_body_char (c : ascii) :
  Str.all_chars key_char (key_body (String c "")) = true.
Proof.
  destruct c as [[] [] [] [] [] [] [] []]; vm_compute; reflexivity.
Qed.

Lemma key_body_clean (s : string) :
  Str.all_chars key_char (key_body s) = true.
Proof.
  induction s as [|c s IH]; [reflexivity|].
  now rewrite key_body_cons, all_chars_app, key_body_char, IH.
Qed.

Lemma key_char_fixed (c : ascii) :
  key_char c = true -> key_body (String c "") = String c "".
Proof.
  destruct c as [[] [] [] [] [] [] [] []]; vm_compute;
    intros H; try reflexivity; discriminate H.
Qed.

Lemma key_body_fixed (s : string) :
  Str.all_chars key_char s = true -> key_body s = s.
Proof.
  induction s as [|c s IH]; [reflexivity|].
  simpl. intros H. apply andb_prop in H as [Hc Hs].
  rewrite key_body_cons, (key_char_fixed c Hc), (IH Hs). reflexivity.
Qed.

(** The characters of a key: lowercase, and free of space, hyphen, pipe
    and period. *)
Lemma normalize_key_chars (s : string) :
  Str.all_chars key_char (normalize_key s) = true.
Proof.
  rewrite normalize_key_unfold. unfold Str.strip.
  apply all_chars_rstrip, all_chars_lstrip, key_body_clean.
Qed.


(** On characters below 256 the normalizer is idempotent. *)
Theorem normalize_key_idempotent (s : string) :
  normalize_key (normalize_key s) = normalize_key s.
Proof.
  rewrite (normalize_key_unfold (normalize_key s)).
  rewrite (key_body_fixed _ (normalize_key_chars s)).
  rewrite normalize_key_unfold. apply strip_idem.
Qed.

End NormalizeKey.

(** ** Parsing the Video Count field *)

Section VideoCount.

Lemma digit_not_underscore (c : ascii) :
  Str.is_digit c = true -> Ascii.eqb c "_" = false.
Proof.
  intros H. destruct (Ascii.eqb_spec c "_") as [->|]; [discriminate H|easy].
Qed.

Lemma digit_not_sign (c : ascii) :
  Str.is_digit c = true -> Ascii.eqb c "+" = false /\ Ascii.eqb c "-" = false.
Proof.
  intros H. split.
  - destruct (Ascii.eqb_spec c "+") as [->|]; [discriminate H|easy].
  - destruct (Ascii.eqb_spec c "-") as [->|]; [discriminate H|easy].
Qed.

Lemma scan_digits_app (s t : string) :
  forall (a : Z) (p : bool) (v : Z),
    scan_digits a p s = Some v ->
    scan_digits a p (s ++ t) = scan_digits v true t.
Proof.
  induction s as [|c s IH]; intros a p v; simpl.
  - destruct p; [intros [= ->]; reflexivity | discriminate].
  - destruct (Str.is_digit c); [apply IH|].
    destruct (Ascii.eqb c "_"); [|discriminate].
    destruct p; [apply IH | discriminate].
Qed.

Lemma Digits_scan (s : string) (v : Z) :
  Digits s v -> scan_digits 0 false s = Some v.
Proof.
  induction 1 as [c Hc | s v c _ IH Hc | s v c _ IH Hc].
  - simpl. now rewrite Hc.
  - rewrite (scan_digits_app _ _ _ _ _ IH). simpl. now rewrite Hc.
  - rewrite (scan_digits_app _ _ _ _ _ IH). simpl. now rewrite Hc.
Qed.

Lemma Digits_head (s : string) (v : Z) :
  Digits s v -> exists c r, s = String c r /\ Str.is_digit c = true.
Proof.
  induction 1 as [c Hc | s v c _ IH Hc | s v c _ IH Hc].
  - now exists c, "".
  - destruct IH as (c0 & r & -> & H0). now exists c0, (r ++ String c "")%string.
  - destruct IH as (c0 & r & -> & H0).
    now exists c0, (r ++ String "_" (String c ""))%string.
Qed.

(** The two states of the loop after a prefix [pre] that denotes [a]:
    just after a digit, and just after an underscore. *)
Lemma scan_digits_sound (s : string) :
  forall (pre : string) (a v : Z),
    Digits pre a ->
    (scan_digits a true s = Some v -> Digits (pre ++ s) v)
    /\ (scan_digits a false s = Some v ->
        Digits (pre ++ String "_" s) v).
Proof.
  induction s as [|c s IH]; intros pre a v Hpre; simpl.
  - split; [|discriminate]. intros [= <-]. now rewrite append_nil_r.
  - destruct (Str.is_digit c) eqn:Hc.
    + split; intros H.
      * apply (IH (pre ++ String c "")%string) in H;
          [|now apply Digits_more].
        now rewrite append_assoc in H.
      * apply (IH (pre ++ String "_" (String c ""))%string) in H;
          [|now apply Digits_group].
        now rewrite append_assoc in H.
    + destruct (Ascii.eqb_spec c "_") as [->|]; split; try discriminate.
      intros H. now apply (IH pre a v Hpre).
Qed.

Lemma scan_Digits (s : string) (v : Z) :
  scan_digits 0 false s = Some v -> Digits s v.
Proof.
  destruct s as [|c s]; simpl; [discriminate|].
  destruct (Str.is_digit c) eqn:Hc.
  - intros H.
    apply (scan_digits_sound s (String c "") (Str.digit_value c) v
             (Digits_one c Hc)) in H.
    exact H.
  - destruct (Ascii.eqb c "_"); discriminate.
Qed.

(** The conversion accepts exactly the numeric strings, with their
    value. *)
Lemma parse_int_Numeric (s : string) (v : Z) :
  parse_int s = Some v <-> Numeric s v.
Proof.
  split.
  - destruct s as [|c s]; [discriminate|]. unfold parse_int.
    destruct (Ascii.eqb_spec c "+") as [->|Hplus].
    + intros H. apply Numeric_plus, scan_Digits, H.
    + destruct (Ascii.eqb_spec c "-") as [->|Hminus].
      * destruct (scan_digits 0 false s) as [w|] eqn:E; [|discriminate].
        simpl. intros [= <-]. apply Numeric_minus, scan_Digits, E.
      * intros H. apply Numeric_plain, scan_Digits, H.
  - intros [t w H | t w H | t w H].
    + destruct (Digits_head _ _ H) as (c & r & -> & Hc).
      unfold parse_int. destruct (digit_not_sign c Hc) as [-> ->].
      now apply Digits_scan.
    + simpl. now apply Digits_scan.
    + simpl. now rewrite (Digits_scan _ _ H).
Qed.

End VideoCount.

Section VideoCountErrors.

Lemma Numeric_nonempty (s : string) (v : Z) : Numeric s v -> s <> "".
Proof.
  intros [t w H | t w H | t w H]; try discriminate.
  destruct (Digits_head _ _ H) as (c & r & -> & _). discriminate.
Qed.

Lemma read_video_count_blank (s : string) :
  Str.strip s = "" -> read_video_count (Value s) = Ok 0%Z.
Proof. unfold read_video_count. simpl. now intros ->. Qed.

Lemma int_Readable (s : string) (v : Z) : int s = Ok v <-> Readable s v.
Proof.
  unfold int, Readable. split.
  - destruct (parse_int s) as [z|] eqn:P; [|discriminate].
    destruct (Nat.ltb_spec max_str_digits (digit_count s)) as [L|L];
      [discriminate|].
    intros [= <-]. split; [now apply parse_int_Numeric | exact L].
  - intros [H L]. apply parse_int_Numeric in H. rewrite H.
    destruct (Nat.ltb_spec max_str_digits (digit_count s)) as [L'|L'];
      [lia | reflexivity].
Qed.

Lemma int_raises (s : string) (e : error) : int s = Raise e -> e = ValueError.
Proof.
  unfold int. destruct (parse_int s); [|now intros [= <-]].
  destruct (Nat.ltb max_str_digits (digit_count s)); [|discriminate].
  now intros [= <-].
Qed.

Lemma read_video_count_numeric (s : string) (v : Z) :
  Readable (Str.strip s) v -> read_video_count (Value s) = Ok v.
Proof.
  intros H. unfold read_video_count. simpl.
  pose proof (Numeric_nonempty _ _ (proj1 H)) as Hne.
  destruct (Str.strip s) as [|c r] eqn:E; [easy|]. simpl.
  now apply int_Readable.
Qed.

Lemma read_video_count_other (s : string) :
  Str.strip s <> "" -> (forall v, ~ Readable (Str.strip s) v) ->
  read_video_count (Value s) = Raise ValueError.
Proof.
  intros Hne Hnum. unfold read_video_count. simpl.
  destruct (Str.strip s) as [|c r] eqn:E; [easy|]. simpl.
  destruct (int (String c r)) as [v|e] eqn:P.
  - apply int_Readable in P. now destruct (Hnum v).
  - now rewrite (int_raises _ _ P).
Qed.

(** The three cases leave nothing out. *)
Lemma video_count_cases (s : string) :
  Str.strip s = ""
  \/ (exists v, Readable (Str.strip s) v)
  \/ (Str.strip s <> "" /\ forall v, ~ Readable (Str.strip s) v).
Proof.
  destruct (Str.strip s) as [|c r] eqn:E; [now left|]. right.
  destruct (int (String c r)) as [v|e] eqn:P.
  - left. exists v. now apply int_Readable.
  - right. split; [discriminate|]. intros v H.
    apply int_Readable in H. congruence.
Qed.

Lemma read_latest_link_value (s : string) :
  exists l, read_latest_link (Value s) = Ok l.
Proof.
  unfold read_latest_link. simpl.
  destruct (Str.is_empty (Str.strip s)); eauto.
Qed.

(** A row with a string in every column raises only for its Video
    Count. *)
Lemma read_row_well_shaped (row : Row) :
  well_shaped row = true ->
  (bad_video_count row /\ read_row row = Raise ValueError)
  \/ (~ bad_video_count row /\ exists f, read_row row = Ok f).
Proof.
  destruct row as [b c t n p o l]. unfold well_shaped. simpl.
  destruct b as [| |b]; try discriminate.
  destruct c as [| |c]; try discriminate.
  destruct t as [| |t]; try discriminate.
  destruct n as [| |n]; try discriminate.
  destruct p as [| |p]; try discriminate.
  destruct o as [| |o]; try discriminate.
  destruct l as [| |l]; try discriminate.
  intros _. unfold read_row, bad_video_count. simpl.
  destruct (read_latest_link_value l) as [ll Hl].
  destruct (video_count_cases n) as [H | [[v H] | [Hne H]]].
  - right. split.
    + intros (s & [= <-] & Hs & _). easy.
    + rewrite (read_video_count_blank n H). simpl. rewrite Hl. simpl. eauto.
  - right. split.
    + intros (s & [= <-] & _ & Hs). now apply (Hs v).
    + rewrite (read_video_count_numeric n v H). simpl.
      rewrite Hl. simpl. eauto.
  - left. split; [now exists n|].
    now rewrite (read_video_count_other n Hne H).
Qed.

Lemma process_rows_well_shaped (rows : list Row) :
  Forall (fun row => well_shaped row = true) rows ->
  forall d,
    (Exists bad_video_count rows /\ process_rows rows d = Raise ValueError)
    \/ (~ Exists bad_video_count rows
        /\ exists d', process_rows rows d = Ok d').
Proof.
  induction 1 as [|row rows Hrow _ IH]; intros d; simpl.
  - right. split; [|eauto]. intros H. inversion H.
  - destruct (read_row_well_shaped row Hrow) as [[Hb ->] | [Hb [f ->]]]; simpl.
    + left. split; [now left | reflexivity].
    + destruct (IH (add_record f d)) as [[He ->] | [He [d' ->]]].
      * left. split; [now right | reflexivity].
      * right. split; [|eauto]. intros H. inversion H; subst; tauto.
Qed.

Lemma process_reader_rows (rows : list Row) :
  forall d : Document,
    process_reader (map Yields rows) d = process_rows rows d.
Proof.
  induction rows as [|row rows IH]; intros d; simpl; [reflexivity|].
  destruct (read_row row) as [f|e]; simpl; [apply IH | reflexivity].
Qed.

(** The run over the rows of the file is the run over a reader that hands
    out each of them. *)
Lemma generate_from_reader_rows (today : string) (disk : Disk) (fs : Files)
  (rows : list Row) :
  classes_csv fs = Some rows ->
  generate_data_json today disk fs
  = generate_from_reader today disk (map Yields rows) fs.
Proof.
  intros H. unfold generate_data_json, generate_from_reader,
    build_from_reader, build_data.
  now rewrite H, process_reader_rows.
Qed.

Lemma process_reader_after_rows (pre : list Row) (rest : list fetched) :
  forall (fs : list Fields) (d : Document),
    read_rows pre = Ok fs ->
    process_reader (map Yields pre ++ rest) d
    = process_reader rest (fold_left (fun d f => add_record f d) fs d).
Proof.
  induction pre as [|row pre IH]; intros fs d; simpl.
  - now intros [= <-].
  - destruct (read_row row) as [f|e]; [|discriminate]. simpl.
    destruct (read_rows pre) as [fs0|] eqn:E; [|discriminate]. simpl.
    intros [= <-]. simpl. now apply IH.
Qed.

(** Whatever the loop raises comes from the first event that is a failure
    of the reader or a row that cannot be read. *)
Lemma process_reader_raises (events : list fetched) :
  forall (d : Document) (e : error),
    process_reader events d = Raise e ->
    exists pre x post,
      events = map Yields pre ++ x :: post
      /\ (exists fs, read_rows pre = Ok fs)
      /\ (x = Fails e \/ exists row, x = Yields row /\ read_row row = Raise e).
Proof.
  induction events as [|[row|e0] events IH]; intros d e; simpl.
  - discriminate.
  - destruct (read_row row) as [f|e'] eqn:Er; simpl.
    + intros H. destruct (IH _ _ H) as (pre & x & post & -> & [fs Hfs] & Hx).
      exists (row :: pre), x, post. split; [reflexivity|].
      split; [|exact Hx]. simpl. rewrite Er, Hfs. simpl. eauto.
    + intros [= <-]. exists [], (Yields row), events.
      split; [reflexivity|]. split; [simpl; eauto|]. right. eauto.
  - intros [= <-]. exists [], (Fails e0), events.
    split; [reflexivity|]. split; [simpl; eauto|]. now left.
Qed.

Lemma long_count_digits : digit_count long_count = S max_str_digits.
Proof. vm_compute. reflexivity. Qed.




End VideoCountErrors.

(** ** Dictionaries *)

Section DictFacts.

Context {V : Type}.
Implicit Types (d : Dict.t V) (k : string) (v : V).

Lemma get_adjust (f : V -> V) k k' d :
  Dict.get k' (Dict.adjust f k d)
  = if String.eqb k' k then option_map f (Dict.get k d) else Dict.get k' d.
Proof.
  induction d as [|[k0 v0] d IH]; simpl.
  - now destruct (String.eqb k' k).
  - destruct (String.eqb_spec k k0) as [->|Hk]; simpl.
    + now destruct (String.eqb k' k0).
    + rewrite IH.
      destruct (String.eqb_spec k' k0) as [->|Hk'];
        [|reflexivity].
      destruct (String.eqb_spec k0 k) as [->|]; [easy | reflexivity].
Qed.

Lemma get_app k d k0 v0 :
  Dict.get k (d ++ [(k0, v0)])
  = match Dict.get k d with
    | Some x => Some x
    | None => if String.eqb k k0 then Some v0 else None
    end.
Proof.
  induction d as [|[k1 v1] d IH]; simpl; [reflexivity|].
  now destruct (String.eqb k k1).
Qed.

Lemma get_setitem k k' v d :
  Dict.get k' (Dict.setitem k v d)
  = if String.eqb k' k then Some v else Dict.get k' d.
Proof.
  unfold Dict.setitem, Dict.contains.
  destruct (Dict.get k d) as [x|] eqn:E.
  - rewrite get_adjust, E. reflexivity.
  - rewrite get_app.
    destruct (String.eqb_spec k' k) as [->|]; [now rewrite E|].
    now destruct (Dict.get k' d).
Qed.

Lemma keys_adjust (f : V -> V) k d :
  Dict.keys (Dict.adjust f k d) = Dict.keys d.
Proof.
  induction d as [|[k0 v0] d IH]; simpl; [reflexivity|].
  destruct (String.eqb k k0); simpl; [reflexivity | now rewrite IH].
Qed.

Lemma length_adjust (f : V -> V) k d :
  List.length (Dict.adjust f k d) = List.length d.
Proof.
  induction d as [|[k0 v0] d IH]; simpl; [reflexivity|].
  destruct (String.eqb k k0); simpl; [reflexivity | now rewrite IH].
Qed.

Lemma get_None_keys k d : Dict.get k d = None -> ~ In k (Dict.keys d).
Proof.
  induction d as [|[k0 v0] d IH]; simpl; [tauto|].
  destruct (String.eqb_spec k k0) as [->|Hk]; [discriminate|].
  intros H [E|HIn]; [congruence | now apply IH].
Qed.

Lemma NoDup_keys_setitem k v d :
  NoDup (Dict.keys d) -> NoDup (Dict.keys (Dict.setitem k v d)).
Proof.
  intros H. unfold Dict.setitem, Dict.contains.
  destruct (Dict.get k d) as [x|] eqn:E.
  - now rewrite keys_adjust.
  - unfold Dict.keys. rewrite map_app. simpl.
    apply NoDup_app; [exact H | repeat constructor; easy |].
    intros a Ha [<-|[]]. now apply (get_None_keys _ _ E).
Qed.

Lemma Forall_adjust (P : V -> Prop) (f : V -> V) k d :
  (forall x, P x -> P (f x)) ->
  Forall (fun kv => P (snd kv)) d ->
  Forall (fun kv => P (snd kv)) (Dict.adjust f k d).
Proof.
  intros Hf. induction 1 as [|[k0 v0] d H0 Hd IH]; simpl; [constructor|].
  destruct (String.eqb k k0); constructor; simpl in *; auto.
Qed.

Lemma Forall_setitem (P : V -> Prop) k v d :
  P v ->
  Forall (fun kv => P (snd kv)) d ->
  Forall (fun kv => P (snd kv)) (Dict.setitem k v d).
Proof.
  intros Hv Hd. unfold Dict.setitem.
  destruct (Dict.contains k d).
  - apply Forall_adjust; auto.
  - apply Forall_app. split; [exact Hd | repeat constructor; exact Hv].
Qed.

End DictFacts.

(** ** One step of the aggregator *)

Section Step.

Variable f : Fields.

Lemma get_ensure_text (ts : Dict.t Text) (t : string) :
  Dict.get t (ensure_text f ts)
  = if String.eqb t (text_key f) then Some (text_or_new f ts)
    else Dict.get t ts.
Proof.
  unfold ensure_text, Dict.contains, text_or_new.
  fold (text_key f).
  destruct (Dict.get (text_key f) ts) as [z|] eqn:E.
  - destruct (String.eqb_spec t (text_key f)) as [->|]; [exact E | reflexivity].
  - now rewrite get_setitem.
Qed.

Lemma get_ensure_category (c : Target) (cs : Dict.t Category) (k : string) :
  Dict.get k (ensure_category c cs)
  = if String.eqb k (key c) then Some (category_or_new c cs)
    else Dict.get k cs.
Proof.
  unfold ensure_category, Dict.contains, category_or_new.
  destruct (Dict.get (key c) cs) as [y|] eqn:E.
  - destruct (String.eqb_spec k (key c)) as [->|]; [exact E | reflexivity].
  - now rewrite get_setitem.
Qed.

Lemma get_ensure_batch (bs : Dict.t Batch) (b : string) :
  Dict.get b (ensure_batch f bs)
  = if String.eqb b (batch_key f) then Some (batch_or_new f bs)
    else Dict.get b bs.
Proof.
  unfold ensure_batch, Dict.contains, batch_or_new.
  fold (batch_key f).
  destruct (Dict.get (batch_key f) bs) as [x|] eqn:E.
  - destruct (String.eqb_spec b (batch_key f)) as [->|]; [exact E | reflexivity].
  - now rewrite get_setitem.
Qed.

Lemma get_texts_step (c : Target) (ts : Dict.t Text) (t : string) :
  Dict.get t (texts_step f c ts)
  = if String.eqb t (text_key f)
    then Some (append_playlist (playlist_entry f (key c)) (text_or_new f ts))
    else Dict.get t ts.
Proof.
  unfold texts_step. fold (text_key f).
  rewrite get_adjust, !get_ensure_text, String.eqb_refl.
  now destruct (String.eqb t (text_key f)).
Qed.

Lemma get_add_to_category (c : Target) (cs : Dict.t Category) (k : string) :
  Dict.get k (add_to_category f c cs)
  = if String.eqb k (key c)
    then Some (with_texts (texts_step f c) (category_or_new c cs))
    else Dict.get k cs.
Proof.
  unfold add_to_category. fold (texts_step f c).
  rewrite get_adjust, !get_ensure_category, String.eqb_refl.
  now destruct (String.eqb k (key c)).
Qed.

Lemma get_add_record (d : Document) (b : string) :
  find_batch (add_record f d) b
  = if String.eqb b (batch_key f)
    then Some (with_categories (categories_step f) (batch_or_new f (batches d)))
    else find_batch d b.
Proof.
  unfold find_batch, add_record. simpl. fold (categories_step f) (batch_key f).
  rewrite get_adjust, !get_ensure_batch, String.eqb_refl.
  now destruct (String.eqb b (batch_key f)).
Qed.

End Step.

(** ** Where the entries of a record go *)

Section Entries.

Variable f : Fields.

Lemma playlists_at_unfold (d : Document) (b c t : string) :
  playlists_at d b c t = batch_playlists (find_batch d b) c t.
Proof.
  unfold playlists_at, find_text, find_category, batch_playlists,
    category_playlists, text_playlists.
  destruct (find_batch d b) as [x|]; [|reflexivity].
  now destruct (Dict.get c (categories x)).
Qed.

Lemma category_playlists_step (c : Target) (cs : Dict.t Category)
  (k t : string) :
  category_playlists (Dict.get k (add_to_category f c cs)) t
  = category_playlists (Dict.get k cs) t
    ++ (if (String.eqb k (key c) && String.eqb t (text_key f))%bool
        then [playlist_entry f (key c)] else []).
Proof.
  rewrite get_add_to_category.
  destruct (String.eqb_spec k (key c)) as [->|Hk]; simpl;
    [|now rewrite app_nil_r].
  rewrite get_texts_step. unfold category_or_new, text_or_new.
  destruct (String.eqb_spec t (text_key f)) as [->|Ht]; simpl.
  - destruct (Dict.get (key c) cs) as [y|]; simpl; [|reflexivity].
    now destruct (Dict.get (text_key f) (texts y)).
  - rewrite app_nil_r. now destruct (Dict.get (key c) cs).
Qed.

Lemma category_playlists_fold (targets : list Target) :
  forall (cs : Dict.t Category) (k t : string),
    category_playlists
      (Dict.get k (fold_left (fun cs c => add_to_category f c cs) targets cs))
      t
    = category_playlists (Dict.get k cs) t
      ++ (if String.eqb t (text_key f)
          then map (fun c => playlist_entry f (key c))
                 (filter (fun c => String.eqb k (key c)) targets)
          else []).
Proof.
  induction targets as [|c targets IH]; intros cs k t; simpl.
  - destruct (String.eqb t (text_key f)); now rewrite app_nil_r.
  - rewrite IH, category_playlists_step, <- app_assoc. f_equal.
    destruct (String.eqb k (key c)), (String.eqb t (text_key f));
      reflexivity.
Qed.

(** After the step for [f], every playlist list is what it was, followed
    by the entries of [f] for that place. *)
Lemma playlists_at_add_record (d : Document) (b c t : string) :
  playlists_at (add_record f d) b c t
  = playlists_at d b c t ++ entries_for b c t f.
Proof.
  rewrite !playlists_at_unfold, get_add_record. unfold entries_for.
  destruct (String.eqb_spec b (batch_key f)) as [->|Hb]; simpl;
    [|now rewrite app_nil_r].
  unfold categories_step. rewrite category_playlists_fold.
  unfold batch_or_new, find_batch.
  destruct (Dict.get (batch_key f) (batches d)) as [x|]; reflexivity.
Qed.

End Entries.

Lemma playlists_at_add_records (fs : list Fields) :
  forall (d : Document) (b c t : string),
    playlists_at (add_records fs d) b c t
    = playlists_at d b c t ++ List.flat_map (entries_for b c t) fs.
Proof.
  induction fs as [|f fs IH]; intros d b c t; simpl.
  - now rewrite app_nil_r.
  - unfold add_records in *. simpl.
    now rewrite IH, playlists_at_add_record, app_assoc.
Qed.

Lemma process_rows_read_rows (rows : list Row) :
  forall d : Document,
    process_rows rows d
    = (fs <- read_rows rows ;; Ok (add_records fs d)).
Proof.
  induction rows as [|row rows IH]; intros d; simpl; [reflexivity|].
  destruct (read_row row) as [f|e]; simpl; [|reflexivity].
  rewrite IH. now destruct (read_rows rows).
Qed.

Lemma process_rows_Ok (rows : list Row) (d d' : Document) :
  process_rows rows d = Ok d' ->
  exists fs, read_rows rows = Ok fs /\ d' = add_records fs d.
Proof.
  rewrite process_rows_read_rows.
  destruct (read_rows rows) as [fs|e]; simpl; [|discriminate].
  intros [= <-]. now exists fs.
Qed.

(** ** Fan-out of ongoing records *)

Section FanOut.

Lemma playlist_entry_natural (f : Fields) :
  is_ongoing f = false \/ natural_category_key f <> "ongoing" ->
  playlist_entry f (natural_category_key f) = plain_entry f.
Proof.
  unfold playlist_entry, plain_entry. intros [H|H].
  - rewrite H. simpl. now destruct (latest_link f).
  - apply String.eqb_neq in H. rewrite H, andb_false_r.
    now destruct (latest_link f).
Qed.

Lemma playlist_entry_ongoing (f : Fields) :
  is_ongoing f = true -> playlist_entry f "ongoing" = ongoing_entry f.
Proof.
  unfold playlist_entry, ongoing_entry. intros ->. simpl.
  now destruct (latest_link f).
Qed.

(** C1, as the code has it: a record that is not ongoing adds one plain
    entry, to the text of its natural category; an ongoing record whose
    natural category key is not itself "ongoing" adds that plain entry and
    a second one under the category "ongoing", and only the second carries
    the latest-video identifier; no other playlist list changes. *)
Theorem fan_out_of_record (f : Fields) (d : Document) :
  is_ongoing f = false \/ natural_category_key f <> "ongoing" ->
  fan_out f d.
Proof.
  intros H b c t. rewrite playlists_at_add_record. f_equal.
  unfold entries_for, at_keys, categories_to_add. cbn [key].
  fold (natural_category_key f).
  destruct (String.eqb b (batch_key f)); simpl;
    [|now rewrite andb_false_r].
  destruct (String.eqb t (text_key f)); simpl;
    [|now rewrite !andb_false_r].
  rewrite !andb_true_r.
  destruct (String.eqb c (natural_category_key f)) eqn:Ec; simpl.
  - rewrite (playlist_entry_natural f H).
    destruct (is_ongoing f) eqn:Eo; simpl; [|reflexivity].
    destruct (String.eqb c "ongoing") eqn:Eg; simpl; [|reflexivity].
    now rewrite (playlist_entry_ongoing f Eo).
  - destruct (is_ongoing f) eqn:Eo; simpl; [|reflexivity].
    destruct (String.eqb c "ongoing") eqn:Eg; simpl; [|reflexivity].
    now rewrite (playlist_entry_ongoing f Eo).
Qed.

Lemma fan_out_of_record_witness :
  natural_category_key fields_katha <> "ongoing"
  /\ fan_out fields_katha (initial_data "2026-01-01").
Proof.
  assert (natural_category_key fields_katha <> "ongoing") as H
    by (vm_compute; discriminate).
  split; [exact H|].
  apply (fan_out_of_record fields_katha (initial_data "2026-01-01")).
  right. exact H.
Defined.

(** C1 as stated fails for an ongoing record whose natural category is
    itself called Ongoing: both copies land in the one category "ongoing",
    and both carry the latest-video identifier. *)
Lemma fan_out_fails_for_category_named_ongoing :
  is_ongoing fields_named_ongoing = true
  /\ playlists_at
       (add_record fields_named_ongoing (initial_data "2026-01-01"))
       "jignasu" "ongoing" "gita"
     = [ongoing_entry fields_named_ongoing; ongoing_entry fields_named_ongoing]
  /\ pl_latest_video_id (ongoing_entry fields_named_ongoing) = Some "VID1"
  /\ ~ fan_out fields_named_ongoing (initial_data "2026-01-01").
Proof.
  repeat split.
  intros H. specialize (H "jignasu" "ongoing" "gita").
  vm_compute in H. discriminate H.
Qed.

End FanOut.

(** ** Order of the playlist entries *)

Section Order.

Lemma entries_for_natural (f : Fields) :
  exists rest,
    entries_for (batch_key f) (natural_category_key f) (text_key f) f
    = playlist_entry f (natural_category_key f) :: rest.
Proof.
  unfold entries_for, categories_to_add.
  rewrite !String.eqb_refl. simpl. fold (natural_category_key f).
  rewrite String.eqb_refl. simpl. eauto.
Qed.

(** C7: the playlist list of every text is what it was before the rows,
    followed by the entries of the rows for that text in the order of the
    rows, one per row and target category; nothing is dropped or merged, so
    a row given twice leaves its entry twice. *)
Theorem playlists_in_row_order :
  (forall rows d d',
      process_rows rows d = Ok d' ->
      exists fs,
        read_rows rows = Ok fs
        /\ forall b c t,
             playlists_at d' b c t
             = playlists_at d b c t ++ List.flat_map (entries_for b c t) fs)
  /\ (forall today row f data,
        read_row row = Ok f ->
        build_data today [row; row] = Ok data ->
        exists rest,
          playlists_at data (batch_key f) (natural_category_key f)
            (text_key f)
          = (playlist_entry f (natural_category_key f) :: rest)
            ++ (playlist_entry f (natural_category_key f) :: rest)).
Proof.
  split.
  - intros rows d d' H.
    destruct (process_rows_Ok rows d d' H) as (fs & Hfs & ->).
    exists fs. split; [exact Hfs|]. intros b c t.
    apply playlists_at_add_records.
  - intros today row f data Hf H. unfold build_data in H.
    simpl in H. rewrite Hf in H. simpl in H. injection H as <-.
    destruct (entries_for_natural f) as [rest Hrest]. exists rest.
    change (playlists_at
              (add_records [f; f] (initial_data today))
              (batch_key f) (natural_category_key f) (text_key f)
            = (playlist_entry f (natural_category_key f) :: rest)
              ++ playlist_entry f (natural_category_key f) :: rest).
    rewrite playlists_at_add_records. simpl.
    now rewrite Hrest, app_nil_r.
Qed.

Lemma playlists_in_row_order_witness :
  (exists d',
      process_rows [row_katha; row_blank_count; row_katha]
        (initial_data "2026-01-01") = Ok d'
      /\ exists fs,
           read_rows [row_katha; row_blank_count; row_katha] = Ok fs
           /\ forall b c t,
                playlists_at d' b c t
                = playlists_at (initial_data "2026-01-01") b c t
                  ++ List.flat_map (entries_for b c t) fs)
  /\ (exists data,
        build_data "2026-01-01" [row_blank_count; row_blank_count] = Ok data
        /\ exists rest,
             playlists_at data "jignasu" "prakaranam" "tattva_bodha"
             = (plain_entry fields_blank_count :: rest)
               ++ (plain_entry fields_blank_count :: rest)).
Proof.
  split.
  - eexists. split; [vm_compute; reflexivity|].
    apply (proj1 playlists_in_row_order
             [row_katha; row_blank_count; row_katha]
             (initial_data "2026-01-01")).
    reflexivity.
  - eexists. split; [vm_compute; reflexivity|].
    apply (proj2 playlists_in_row_order "2026-01-01" row_blank_count
             fields_blank_count _ eq_refl eq_refl).
Defined.

End Order.

(** ** Nodes are created once and kept *)

Section Kept.

Lemma text_kept_refl (z : Text) : text_kept z z.
Proof. repeat split. exists []. now rewrite app_nil_r. Qed.

Lemma text_kept_trans (z1 z2 z3 : Text) :
  text_kept z1 z2 -> text_kept z2 z3 -> text_kept z1 z3.
Proof.
  intros (N1 & D1 & m1 & P1) (N2 & D2 & m2 & P2).
  repeat split; try congruence.
  exists (m1 ++ m2). now rewrite P2, P1, app_assoc.
Qed.

Lemma category_kept_refl (y : Category) : category_kept y y.
Proof.
  repeat split. intros t z H. exists z. split; [exact H|].
  apply text_kept_refl.
Qed.

Lemma category_kept_trans (y1 y2 y3 : Category) :
  category_kept y1 y2 -> category_kept y2 y3 -> category_kept y1 y3.
Proof.
  intros (N1 & D1 & T1) (N2 & D2 & T2).
  repeat split; try congruence.
  intros t z H.
  destruct (T1 t z H) as (z2 & H2 & K2).
  destruct (T2 t z2 H2) as (z3 & H3 & K3).
  exists z3. split; [exact H3|]. now apply text_kept_trans with z2.
Qed.

Lemma batch_kept_refl (x : Batch) : batch_kept x x.
Proof.
  repeat split. intros c y H. exists y. split; [exact H|].
  apply category_kept_refl.
Qed.

Lemma batch_kept_trans (x1 x2 x3 : Batch) :
  batch_kept x1 x2 -> batch_kept x2 x3 -> batch_kept x1 x3.
Proof.
  intros (N1 & D1 & C1) (N2 & D2 & C2).
  repeat split; try congruence.
  intros c y H.
  destruct (C1 c y H) as (y2 & H2 & K2).
  destruct (C2 c y2 H2) as (y3 & H3 & K3).
  exists y3. split; [exact H3|]. now apply category_kept_trans with y2.
Qed.

Lemma document_kept_refl (d : Document) : document_kept d d.
Proof.
  intros b x H. exists x. split; [exact H | apply batch_kept_refl].
Qed.

Lemma document_kept_trans (d1 d2 d3 : Document) :
  document_kept d1 d2 -> document_kept d2 d3 -> document_kept d1 d3.
Proof.
  intros K1 K2 b x H.
  destruct (K1 b x H) as (x2 & H2 & B2).
  destruct (K2 b x2 H2) as (x3 & H3 & B3).
  exists x3. split; [exact H3|]. now apply batch_kept_trans with x2.
Qed.

Variable f : Fields.

Lemma texts_step_kept (c : Target) (ts : Dict.t Text) (t : string) (z : Text) :
  Dict.get t ts = Some z ->
  exists z', Dict.get t (texts_step f c ts) = Some z' /\ text_kept z z'.
Proof.
  intros H. rewrite get_texts_step.
  destruct (String.eqb_spec t (text_key f)) as [->|Ht].
  - eexists. split; [reflexivity|].
    unfold text_or_new. rewrite H.
    repeat split. simpl. eauto.
  - exists z. split; [exact H | apply text_kept_refl].
Qed.

Lemma add_to_category_kept (c : Target) (cs : Dict.t Category)
  (k : string) (y : Category) :
  Dict.get k cs = Some y ->
  exists y', Dict.get k (add_to_category f c cs) = Some y'
             /\ category_kept y y'.
Proof.
  intros H. rewrite get_add_to_category.
  destruct (String.eqb_spec k (key c)) as [->|Hk].
  - eexists. split; [reflexivity|].
    unfold category_or_new. rewrite H.
    repeat split. simpl. intros t z Hz. now apply texts_step_kept.
  - exists y. split; [exact H | apply category_kept_refl].
Qed.

Lemma categories_fold_kept (targets : list Target) :
  forall (cs : Dict.t Category) (k : string) (y : Category),
    Dict.get k cs = Some y ->
    exists y',
      Dict.get k (fold_left (fun cs c => add_to_category f c cs) targets cs)
      = Some y'
      /\ category_kept y y'.
Proof.
  induction targets as [|c targets IH]; intros cs k y H; simpl.
  - exists y. split; [exact H | apply category_kept_refl].
  - destruct (add_to_category_kept c cs k y H) as (y1 & H1 & K1).
    destruct (IH _ k y1 H1) as (y2 & H2 & K2).
    exists y2. split; [exact H2|]. now apply category_kept_trans with y1.
Qed.

Lemma add_record_kept (d : Document) : document_kept d (add_record f d).
Proof.
  intros b x H. rewrite get_add_record.
  destruct (String.eqb_spec b (batch_key f)) as [->|Hb].
  - eexists. split; [reflexivity|].
    unfold batch_or_new. unfold find_batch in H. rewrite H.
    repeat split. simpl. intros c y Hy.
    now apply categories_fold_kept.
  - exists x. split; [exact H | apply batch_kept_refl].
Qed.

End Kept.

Lemma add_records_kept (fs : list Fields) :
  forall d : Document, document_kept d (add_records fs d).
Proof.
  induction fs as [|f fs IH]; intros d; simpl.
  - apply document_kept_refl.
  - apply document_kept_trans with (add_record f d);
      [apply add_record_kept | apply IH].
Qed.

Section KeptNames.

Variables d d' : Document.
Hypothesis K : document_kept d d'.

Lemma kept_batch (b : string) (x : Batch) :
  find_batch d b = Some x ->
  exists x', find_batch d' b = Some x'
             /\ batch_name_of x' = batch_name_of x
             /\ batch_description x' = batch_description x.
Proof.
  intros H. destruct (K b x H) as (x' & H' & N & D & _). eauto.
Qed.

Lemma kept_category (b c : string) (y : Category) :
  find_category d b c = Some y ->
  exists y', find_category d' b c = Some y' /\ category_kept y y'.
Proof.
  unfold find_category. destruct (find_batch d b) as [x|] eqn:E;
    [|discriminate].
  intros H. destruct (K b x E) as (x' & -> & _ & _ & C).
  now apply C.
Qed.

Lemma kept_text (b c t : string) (z : Text) :
  find_text d b c t = Some z ->
  exists z', find_text d' b c t = Some z' /\ text_kept z z'.
Proof.
  unfold find_text. destruct (find_category d b c) as [y|] eqn:E;
    [|discriminate].
  intros H. destruct (kept_category b c y E) as (y' & -> & _ & _ & T).
  now apply T.
Qed.

End KeptNames.

Section UniqueKeys.

Variable f : Fields.

Lemma texts_step_unique (c : Target) (y : Category) :
  unique_text_keys y -> unique_text_keys (with_texts (texts_step f c) y).
Proof.
  unfold unique_text_keys, texts_step, ensure_text. simpl.
  rewrite keys_adjust. intros H.
  destruct (Dict.contains (normalize_key (text_name f)) (texts y));
    [exact H | now apply NoDup_keys_setitem].
Qed.

Lemma add_to_category_unique (c : Target) (x : Batch) :
  unique_category_keys x ->
  unique_category_keys (with_categories (add_to_category f c) x).
Proof.
  unfold unique_category_keys, add_to_category, ensure_category. simpl.
  intros [Hk Ht]. rewrite keys_adjust. split.
  - destruct (Dict.contains (key c) (categories x));
      [exact Hk | now apply NoDup_keys_setitem].
  - apply (Forall_adjust unique_text_keys); [apply texts_step_unique|].
    destruct (Dict.contains (key c) (categories x)); [exact Ht|].
    apply (Forall_setitem unique_text_keys); [constructor | exact Ht].
Qed.

Lemma categories_fold_unique (targets : list Target) :
  forall x : Batch,
    unique_category_keys x ->
    unique_category_keys
      (with_categories
         (fun cs => fold_left (fun cs c => add_to_category f c cs) targets cs)
         x).
Proof.
  induction targets as [|c targets IH]; intros x H.
  - destruct x. exact H.
  - apply (IH (with_categories (add_to_category f c) x)).
    now apply add_to_category_unique.
Qed.

Lemma add_record_unique (d : Document) :
  unique_keys d -> unique_keys (add_record f d).
Proof.
  unfold unique_keys, add_record, ensure_batch. simpl.
  intros [Hk Hc]. rewrite keys_adjust. split.
  - destruct (Dict.contains (normalize_key (batch_name f)) (batches d));
      [exact Hk | now apply NoDup_keys_setitem].
  - apply (Forall_adjust unique_category_keys).
    + intros x Hx. exact (categories_fold_unique (categories_to_add f) x Hx).
    + destruct (Dict.contains (normalize_key (batch_name f)) (batches d));
        [exact Hc|].
      apply (Forall_setitem unique_category_keys); [|exact Hc].
      split; constructor.
Qed.

End UniqueKeys.

Lemma add_records_unique (fs : list Fields) :
  forall d : Document, unique_keys d -> unique_keys (add_records fs d).
Proof.
  induction fs as [|f fs IH]; intros d H; [exact H|].
  apply (IH (add_record f d)). now apply add_record_unique.
Qed.

Lemma initial_data_unique (today : string) : unique_keys (initial_data today).
Proof. split; constructor. Qed.

Lemma process_rows_app (pre post : list Row) :
  forall d : Document,
    process_rows (pre ++ post) d
    = (d1 <- process_rows pre d ;; process_rows post d1).
Proof.
  induction pre as [|row pre IH]; intros d; simpl; [reflexivity|].
  destruct (read_row row) as [f|e]; simpl; [apply IH | reflexivity].
Qed.

(** C6: whatever part of the input has been processed, every batch,
    category and text that exists then is still there at the end of the
    run, with the display name and description it had; and at every level
    of the finished document no key occurs twice. *)
Theorem nodes_created_once (today : string) (pre post : list Row)
  (data : Document) :
  build_data today (pre ++ post) = Ok data ->
  unique_keys data
  /\ exists d,
      process_rows pre (initial_data today) = Ok d
      /\ (forall b x,
            find_batch d b = Some x ->
            exists x', find_batch data b = Some x'
                       /\ batch_name_of x' = batch_name_of x
                       /\ batch_description x' = batch_description x)
      /\ (forall b c y,
            find_category d b c = Some y ->
            exists y', find_category data b c = Some y'
                       /\ cat_name y' = cat_name y
                       /\ cat_description y' = cat_description y)
      /\ (forall b c t z,
            find_text d b c t = Some z ->
            exists z', find_text data b c t = Some z'
                       /\ text_name_of z' = text_name_of z
                       /\ text_description z' = text_description z).
Proof.
  unfold build_data. rewrite process_rows_app.
  destruct (process_rows pre (initial_data today)) as [d|e] eqn:Epre;
    [|discriminate].
  simpl.
  destruct (process_rows post d) as [d'|e] eqn:Epost; [|discriminate].
  simpl. intros [= <-].
  destruct (process_rows_Ok _ _ _ Epre) as (fs1 & _ & ->).
  destruct (process_rows_Ok _ _ _ Epost) as (fs2 & _ & ->).
  split.
  - apply (add_records_unique fs2), (add_records_unique fs1),
      initial_data_unique.
  - eexists. split; [reflexivity|].
    pose proof (add_records_kept fs2
                  (add_records fs1 (initial_data today))) as K.
    repeat split.
    + intros b x H. exact (kept_batch _ _ K b x H).
    + intros b c y H.
      destruct (kept_category _ _ K b c y H) as (y' & H' & N & D & _).
      eauto.
    + intros b c t z H.
      destruct (kept_text _ _ K b c t z H) as (z' & H' & N & D & _).
      eauto.
Qed.

Lemma nodes_created_once_witness :
  exists data,
    build_data "2026-01-01" ([row_lowercase_batch] ++ [row_katha]) = Ok data
    /\ unique_keys data
    /\ exists d,
        process_rows [row_lowercase_batch] (initial_data "2026-01-01") = Ok d
        /\ (forall b x,
              find_batch d b = Some x ->
              exists x', find_batch data b = Some x'
                         /\ batch_name_of x' = batch_name_of x
                         /\ batch_description x' = batch_description x)
        /\ (forall b c y,
              find_category d b c = Some y ->
              exists y', find_category data b c = Some y'
                         /\ cat_name y' = cat_name y
                         /\ cat_description y' = cat_description y)
        /\ (forall b c t z,
              find_text d b c t = Some z ->
              exists z', find_text data b c t = Some z'
                         /\ text_name_of z' = text_name_of z
                         /\ text_description z' = text_description z).
Proof.
  eexists. split; [vm_compute; reflexivity|].
  apply (nodes_created_once "2026-01-01" [row_lowercase_batch] [row_katha]).
  reflexivity.
Defined.

(** ** Display metadata of a new node *)

Section NewNodes.

Lemma read_row_names (row : Row) (f : Fields) :
  read_row row = Ok f ->
  exists b c,
    col_Batch row = Value b /\ batch_name f = Str.strip b
    /\ col_Category row = Value c /\ category_name f = Str.strip c.
Proof.
  unfold read_row.
  destruct (col_Batch row) as [| |b]; try discriminate.
  destruct (col_Category row) as [| |c]; try discriminate. simpl.
  destruct (stripped (col_Text row)); [|discriminate]. simpl.
  destruct (read_video_count (col_Video_Count row)); [|discriminate]. simpl.
  destruct (stripped (col_Playlist row)); [|discriminate]. simpl.
  destruct (stripped (col_Is_Ongoing row)); [|discriminate]. simpl.
  destruct (read_latest_link (col_Latest_Link row)); [|discriminate]. simpl.
  intros [= <-]. exists b, c. simpl. auto.
Qed.

Lemma add_record_new_batch (f : Fields) (d : Document) :
  find_batch d (batch_key f) = None ->
  exists x,
    find_batch (add_record f d) (batch_key f) = Some x
    /\ batch_name_of x = info_name (get_batch_info (batch_name f))
    /\ batch_description x = info_description (get_batch_info (batch_name f)).
Proof.
  intros H. rewrite get_add_record, String.eqb_refl.
  eexists. split; [reflexivity|].
  unfold batch_or_new. unfold find_batch in H. rewrite H. simpl. auto.
Qed.

Lemma add_record_new_category (f : Fields) (d : Document) :
  find_category d (batch_key f) (natural_category_key f) = None ->
  exists y,
    find_category (add_record f d) (batch_key f) (natural_category_key f)
    = Some y
    /\ cat_name y = info_name (get_category_info (category_name f))
    /\ cat_description y
       = info_description (get_category_info (category_name f)).
Proof.
  intros H. unfold find_category in *.
  rewrite get_add_record, String.eqb_refl.
  assert (Dict.get (natural_category_key f)
            (categories (batch_or_new f (batches d))) = None) as E.
  { unfold batch_or_new, find_batch in *.
    destruct (Dict.get (batch_key f) (batches d)); [exact H | reflexivity]. }
  set (cs := categories (batch_or_new f (batches d))) in *.
  set (natural :=
         mkTarget (natural_category_key f)
           (info_name (get_category_info (category_name f)))
           (info_description (get_category_info (category_name f)))).
  assert (exists y1,
             Dict.get (natural_category_key f) (add_to_category f natural cs)
             = Some y1
             /\ cat_name y1 = name natural
             /\ cat_description y1 = description natural)
    as (y1 & H1 & N1 & D1).
  { rewrite get_add_to_category. simpl. rewrite String.eqb_refl.
    eexists. split; [reflexivity|].
    unfold category_or_new. simpl. rewrite E. simpl. auto. }
  destruct (categories_fold_kept f
              (if is_ongoing f
               then [mkTarget "ongoing" "Ongoing"
                       "Current studies across different texts"]
               else [])
              _ _ _ H1) as (y2 & H2 & N2 & D2 & _).
  exists y2. split; [exact H2|]. simpl in N1, D1. split; congruence.
Qed.

Lemma add_record_new_ongoing (f : Fields) (d : Document) :
  is_ongoing f = true ->
  natural_category_key f <> "ongoing" ->
  find_category d (batch_key f) "ongoing" = None ->
  exists y,
    find_category (add_record f d) (batch_key f) "ongoing" = Some y
    /\ cat_name y = "Ongoing"
    /\ cat_description y = "Current studies across different texts".
Proof.
  intros Ho Hn H. unfold find_category in *.
  rewrite get_add_record, String.eqb_refl.
  assert (Dict.get "ongoing" (categories (batch_or_new f (batches d))) = None)
    as E.
  { unfold batch_or_new, find_batch in *.
    destruct (Dict.get (batch_key f) (batches d)); [exact H | reflexivity]. }
  set (cs := categories (batch_or_new f (batches d))) in *.
  cbn [categories with_categories]. unfold categories_step, categories_to_add.
  rewrite Ho. cbn [app fold_left]. rewrite get_add_to_category.
  cbn [key]. rewrite String.eqb_refl.
  eexists. split; [reflexivity|].
  unfold category_or_new. cbn [key]. rewrite get_add_to_category. cbn [key].
  fold (natural_category_key f).
  assert (String.eqb "ongoing" (natural_category_key f) = false) as Hneq
    by (apply String.eqb_neq; congruence).
  unfold cs in E. rewrite Hneq, E. split; reflexivity.
Qed.

(** C10 as stated fails for the category "ongoing" that the fan-out of an
    ongoing row creates: its display name and description are fixed texts,
    not the table entry of the row's category name. *)
Lemma fan_out_category_has_fixed_metadata :
  find_category (initial_data "2026-01-01") (batch_key fields_katha)
    "ongoing" = None
  /\ option_map cat_name
       (find_category (add_record fields_katha (initial_data "2026-01-01"))
          (batch_key fields_katha) "ongoing")
     = Some "Ongoing"
  /\ info_name (get_category_info (category_name fields_katha))
     = "Upanishads"
  /\ ~ category_metadata_from_raw_name.
Proof.
  repeat split.
  intros H.
  destruct (H fields_katha (initial_data "2026-01-01") "ongoing"
              (mkCategory "Ongoing" "Current studies across different texts"
                 [("katha_upanishad",
                    mkText "Katha Upanishad" "Katha Upanishad study"
                      [ongoing_entry fields_katha])])
              eq_refl eq_refl) as [N _].
  discriminate N.
Qed.

(** C10, as the code has it: the row that creates a batch, or the node of
    its natural category, gives it the table entry of its own trimmed name
    as written, or that name and an empty description when the table has
    no such entry; the category "ongoing" that the fan-out of an ongoing
    row creates gets the fixed name "Ongoing" and its fixed description;
    the rows after it leave all of this as it is, also those whose name is
    written differently and has the same key.  A batch written
    "tattvamasi" and a category written "upanishad" thus get their own
    names and empty descriptions, and later rows written "Tattvamasi" and
    "Upanishad" join these nodes. *)
Theorem metadata_from_creating_row :
  (forall row rows f d d',
      read_row row = Ok f ->
      process_rows (row :: rows) d = Ok d' ->
      (exists b c,
          col_Batch row = Value b /\ batch_name f = Str.strip b
          /\ col_Category row = Value c /\ category_name f = Str.strip c)
      /\ (find_batch d (batch_key f) = None ->
          exists x,
            find_batch d' (batch_key f) = Some x
            /\ batch_name_of x = info_name (get_batch_info (batch_name f))
            /\ batch_description x
               = info_description (get_batch_info (batch_name f)))
      /\ (find_category d (batch_key f) (natural_category_key f) = None ->
          exists y,
            find_category d' (batch_key f) (natural_category_key f) = Some y
            /\ cat_name y = info_name (get_category_info (category_name f))
            /\ cat_description y
               = info_description (get_category_info (category_name f)))
      /\ (is_ongoing f = true ->
          natural_category_key f <> "ongoing" ->
          find_category d (batch_key f) "ongoing" = None ->
          exists y,
            find_category d' (batch_key f) "ongoing" = Some y
            /\ cat_name y = "Ongoing"
            /\ cat_description y = "Current studies across different texts"))
  /\ get_batch_info "tattvamasi" = mkInfo "tattvamasi" ""
  /\ get_batch_info "Tattvamasi" = mkInfo "Tattvamasi Batch" "Coimbatore Batch"
  /\ get_category_info "upanishad" = mkInfo "upanishad" ""
  /\ get_category_info "Upanishad"
     = mkInfo "Upanishads"
         "Ancient wisdom texts - the culmination of Vedic knowledge"
  /\ (exists data,
        build_data "2026-01-01" [row_lowercase_batch; row_katha] = Ok data
        /\ Dict.keys (batches data) = ["tattvamasi"]
        /\ option_map batch_name_of (find_batch data "tattvamasi")
           = Some "tattvamasi"
        /\ option_map batch_description (find_batch data "tattvamasi")
           = Some ""
        /\ option_map cat_name (find_category data "tattvamasi" "upanishad")
           = Some "Upanishads"
        /\ option_map cat_name (find_category data "tattvamasi" "ongoing")
           = Some "Ongoing")
  /\ (exists data,
        build_data "2026-01-01" [row_lowercase_category; row_katha] = Ok data
        /\ option_map (fun x => Dict.keys (categories x))
             (find_batch data "tattvamasi")
           = Some ["upanishad"; "ongoing"]
        /\ option_map cat_name (find_category data "tattvamasi" "upanishad")
           = Some "upanishad"
        /\ option_map cat_description
             (find_category data "tattvamasi" "upanishad")
           = Some "").
Proof.
  split;
    [|repeat split; eexists; repeat split; vm_compute; reflexivity].
  intros row rows f d d' Hf H. simpl in H. rewrite Hf in H. simpl in H.
  destruct (process_rows_Ok _ _ _ H) as (fs & _ & ->).
  pose proof (add_records_kept fs (add_record f d)) as K.
  split; [now apply read_row_names|]. split; [|split].
  - intros Hnew.
    destruct (add_record_new_batch f d Hnew) as (x & Hx & N & D).
    destruct (kept_batch _ _ K _ _ Hx) as (x' & Hx' & N' & D').
    exists x'. split; [exact Hx'|]. split; congruence.
  - intros Hnew.
    destruct (add_record_new_category f d Hnew) as (y & Hy & N & D).
    destruct (kept_category _ _ K _ _ _ Hy) as (y' & Hy' & N' & D' & _).
    exists y'. split; [exact Hy'|]. split; congruence.
  - intros Ho Hn Hnew.
    destruct (add_record_new_ongoing f d Ho Hn Hnew) as (y & Hy & N & D).
    destruct (kept_category _ _ K _ _ _ Hy) as (y' & Hy' & N' & D' & _).
    exists y'. split; [exact Hy'|]. split; congruence.
Qed.

Lemma metadata_from_creating_row_witness :
  exists d',
    process_rows [row_lowercase_batch; row_katha] (initial_data "2026-01-01")
    = Ok d'
    /\ (exists x,
          find_batch d' "tattvamasi" = Some x
          /\ batch_name_of x = "tattvamasi"
          /\ batch_description x = "")
    /\ (exists y,
          find_category d' "tattvamasi" "upanishad" = Some y
          /\ cat_name y = "Upanishads"
          /\ cat_description y
             = "Ancient wisdom texts - the culmination of Vedic knowledge").
Proof.
  eexists. split; [vm_compute; reflexivity|].
  destruct (proj1 metadata_from_creating_row
              row_lowercase_batch [row_katha]
              (mkFields "tattvamasi" "Upanishad" "Kena Upanishad"
                 3 "PL9" false None)
              (initial_data "2026-01-01") _ eq_refl eq_refl)
    as (_ & HB & HC & _).
  split; [apply HB | apply HC]; reflexivity.
Defined.

End NewNodes.

(** ** The summary counts *)

Section Counts.

Lemma fold_left_add (l : list Z) :
  forall a : Z, fold_left Z.add l a = (a + fold_left Z.add l 0)%Z.
Proof.
  induction l as [|x l IH]; intros a; simpl; [lia|].
  rewrite (IH (a + x)%Z), (IH x). lia.
Qed.

Lemma sum_cons (x : Z) (l : list Z) : sum (x :: l) = (x + sum l)%Z.
Proof. unfold sum. simpl. apply fold_left_add. Qed.

Lemma sum_len {A B : Type} (g : A -> list B) (l : list A) :
  sum (map (fun x => len (g x)) l)
  = Z.of_nat (list_sum (map (fun x => List.length (g x)) l)).
Proof.
  induction l as [|x l IH]; [reflexivity|].
  simpl map. rewrite sum_cons, IH. unfold len. simpl list_sum. lia.
Qed.

Lemma list_sum_flat_map {A B : Type} (h : B -> nat) (F : A -> list B)
  (l : list A) :
  list_sum (map h (List.flat_map F l))
  = list_sum (map (fun x => list_sum (map h (F x))) l).
Proof.
  induction l as [|x l IH]; [reflexivity|].
  simpl. now rewrite map_app, list_sum_app, IH.
Qed.

Lemma list_sum_ext {A : Type} (g h : A -> nat) (l : list A) :
  (forall x, g x = h x) -> list_sum (map g l) = list_sum (map h l).
Proof. intros E. f_equal. now apply map_ext. Qed.

Lemma length_flat_map_sum {A B : Type} (F : A -> list B) (l : list A) :
  List.length (List.flat_map F l)
  = list_sum (map (fun x => List.length (F x)) l).
Proof.
  induction l as [|x l IH]; [reflexivity|].
  simpl. now rewrite length_app, IH.
Qed.

Variable d : Document.

Lemma total_categories_sum :
  total_categories (calculate_metadata d) = Z.of_nat (count_categories d).
Proof.
  unfold calculate_metadata, count_categories, Dict.values. simpl.
  now rewrite sum_len, map_map.
Qed.

Lemma total_texts_sum :
  total_texts (calculate_metadata d) = Z.of_nat (count_texts d).
Proof.
  unfold calculate_metadata, count_texts, Dict.values. simpl.
  rewrite sum_len, list_sum_flat_map, map_map. f_equal.
  apply list_sum_ext. intros bx. now rewrite map_map.
Qed.

Lemma total_playlists_sum :
  total_playlists (calculate_metadata d) = Z.of_nat (count_playlists d).
Proof.
  unfold calculate_metadata, count_playlists, Dict.values. simpl.
  rewrite sum_len, !list_sum_flat_map, map_map. f_equal.
  apply list_sum_ext. intros bx. rewrite map_map.
  apply list_sum_ext. intros cy. now rewrite map_map.
Qed.

Lemma count_categories_enum :
  count_categories d = List.length (all_categories d).
Proof.
  unfold all_categories, all_batches, count_categories.
  rewrite length_flat_map_sum.
  apply list_sum_ext. intros bx. now rewrite length_map.
Qed.

Lemma count_texts_enum : count_texts d = List.length (all_texts d).
Proof.
  unfold all_texts, all_categories, all_batches, count_texts.
  rewrite length_flat_map_sum, list_sum_flat_map.
  apply list_sum_ext. intros bx. rewrite map_map.
  apply list_sum_ext. intros cy. now rewrite length_map.
Qed.

Lemma count_playlists_enum :
  count_playlists d = List.length (all_playlists d).
Proof.
  unfold all_playlists, all_texts, all_categories, all_batches,
    count_playlists.
  rewrite length_flat_map_sum, !list_sum_flat_map.
  apply list_sum_ext. intros bx. rewrite map_map.
  apply list_sum_ext. intros cy. rewrite map_map.
  apply list_sum_ext. intros tz. now rewrite length_map.
Qed.

End Counts.

(** C5: the metadata of a finished document counts the batches, categories,
    texts and playlist entries that the same document holds: each count is
    the sum the specification names, and the number of items met when the
    nested structure is listed item by item. *)
Theorem metadata_counts (today : string) (rows : list Row) (data : Document) :
  build_data today rows = Ok data ->
  exists m,
    metadata data = Some m
    /\ total_batches m = Z.of_nat (List.length (Dict.keys (batches data)))
    /\ total_categories m = Z.of_nat (count_categories data)
    /\ total_texts m = Z.of_nat (count_texts data)
    /\ total_playlists m = Z.of_nat (count_playlists data)
    /\ count_categories data = List.length (all_categories data)
    /\ count_texts data = List.length (all_texts data)
    /\ count_playlists data = List.length (all_playlists data).
Proof.
  unfold build_data.
  destruct (process_rows rows (initial_data today)) as [d|e];
    [|discriminate].
  simpl. intros [= <-]. eexists. split; [reflexivity|].
  change (batches (with_metadata (calculate_metadata d) d)) with (batches d).
  change (count_categories (with_metadata (calculate_metadata d) d))
    with (count_categories d).
  change (count_texts (with_metadata (calculate_metadata d) d))
    with (count_texts d).
  change (count_playlists (with_metadata (calculate_metadata d) d))
    with (count_playlists d).
  change (all_categories (with_metadata (calculate_metadata d) d))
    with (all_categories d).
  change (all_texts (with_metadata (calculate_metadata d) d))
    with (all_texts d).
  change (all_playlists (with_metadata (calculate_metadata d) d))
    with (all_playlists d).
  split; [unfold Dict.keys; now rewrite length_map|].
  split; [apply total_categories_sum|].
  split; [apply total_texts_sum|].
  split; [apply total_playlists_sum|].
  split; [apply count_categories_enum|].
  split; [apply count_texts_enum | apply count_playlists_enum].
Qed.

Lemma metadata_counts_witness :
  exists data,
    build_data "2026-01-01" [row_katha; row_blank_count; row_katha] = Ok data
    /\ exists m,
        metadata data = Some m
        /\ total_batches m = Z.of_nat (List.length (Dict.keys (batches data)))
        /\ total_categories m = Z.of_nat (count_categories data)
        /\ total_texts m = Z.of_nat (count_texts data)
        /\ total_playlists m = Z.of_nat (count_playlists data)
        /\ count_categories data = List.length (all_categories data)
        /\ count_texts data = List.length (all_texts data)
        /\ count_playlists data = List.length (all_playlists data).
Proof.
  eexists. split; [vm_compute; reflexivity|].
  apply (metadata_counts "2026-01-01" [row_katha; row_blank_count; row_katha]).
  reflexivity.
Defined.

(** ** The output and the date *)

Section Date.

Lemma dumps_date (d : Document) :
  Json.dumps d
  = (before_date d
     ++ Json.encode_basestring (last_updated (site_info d))
     ++ after_date d)%string.
Proof.
  unfold Json.dumps, Json.of_document, Json.of_site_info, before_date,
    after_date.
  cbn [Json.encode].
  repeat rewrite append_assoc. reflexivity.
Qed.

Lemma add_record_with_date (today : string) (f : Fields) (d : Document) :
  add_record f (with_date today d) = with_date today (add_record f d).
Proof. reflexivity. Qed.

Lemma process_rows_with_date (today : string) (rows : list Row) :
  forall d : Document,
    process_rows rows (with_date today d)
    = (d' <- process_rows rows d ;; Ok (with_date today d')).
Proof.
  induction rows as [|row rows IH]; intros d; simpl; [reflexivity|].
  destruct (read_row row) as [f|e]; simpl; [|reflexivity].
  now rewrite add_record_with_date, IH.
Qed.

(** The document of any day is the document of the empty date with the
    day written into it. *)
Lemma build_data_with_date (today : string) (rows : list Row) :
  build_data today rows
  = (d <- build_data "" rows ;; Ok (with_date today d)).
Proof.
  unfold build_data.
  change (initial_data today) with (with_date today (initial_data "")).
  rewrite process_rows_with_date.
  now destruct (process_rows rows (initial_data "")).
Qed.

(** C9: with the same input file and a disk that takes the whole output,
    every run ends the same way: either with the same exception and the
    files untouched, or with an output file that is the same text around
    the quoted date of the day. *)
Theorem output_same_but_for_date (fs : Files) :
  (exists e, forall today,
      generate_data_json today Healthy fs = (fs, Raise e))
  \/ (exists before after, forall today,
        generate_data_json today Healthy fs
        = (mkFiles (classes_csv fs)
             (Some (before ++ Json.encode_basestring today ++ after)%string),
           Ok tt)).
Proof.
  unfold generate_data_json.
  destruct (classes_csv fs) as [rows|] eqn:Ecsv;
    [|left; now exists FileNotFoundError].
  destruct (build_data "" rows) as [d|e] eqn:E.
  - right. exists (before_date d), (after_date d). intros today.
    rewrite build_data_with_date, E. unfold bind, write_output.
    rewrite dumps_date, Ecsv. reflexivity.
  - left. exists e. intros today.
    now rewrite build_data_with_date, E.
Qed.

End Date.

(** ** Failures and the output file *)

Section Failures.




End Failures.

(** ** The worked example of the specification *)

Section WorkedExample.

(** The flag and the link of a record, from the cells of its row. *)
Lemma read_row_flags (row : Row) (f : Fields) :
  read_row row = Ok f ->
  exists o l,
    col_Is_Ongoing row = Value o
    /\ is_ongoing f = String.eqb (Str.lower (Str.strip o)) "yes"
    /\ col_Latest_Link row = Value l
    /\ latest_link f
       = if Str.is_empty (Str.strip l) then None else Some (Str.strip l).
Proof.
  unfold read_row.
  destruct (stripped (col_Batch row)); [|discriminate]. simpl.
  destruct (stripped (col_Category row)); [|discriminate]. simpl.
  destruct (stripped (col_Text row)); [|discriminate]. simpl.
  destruct (read_video_count (col_Video_Count row)); [|discriminate]. simpl.
  destruct (stripped (col_Playlist row)); [|discriminate]. simpl.
  destruct (col_Is_Ongoing row) as [| |o]; try discriminate. simpl.
  destruct (col_Latest_Link row) as [| |l]; try discriminate.
  unfold read_latest_link. simpl.
  destruct (Str.is_empty (Str.strip l)) eqn:E; simpl; intros [= <-];
    exists o, l; simpl; rewrite ?E; auto.
Qed.

Example katha_row_read : read_row row_katha = Ok fields_katha.
Proof. reflexivity. Qed.

Example katha_document :
  exists data,
    build_data "2026-01-01" [row_katha] = Ok data
    /\ Dict.keys (batches data) = ["tattvamasi"]
    /\ option_map batch_name_of (find_batch data "tattvamasi")
       = Some "Tattvamasi Batch"
    /\ option_map (fun x => Dict.keys (categories x))
         (find_batch data "tattvamasi")
       = Some ["upanishad"; "ongoing"]
    /\ playlists_at data "tattvamasi" "upanishad" "katha_upanishad"
       = [mkPlaylist "Katha Upanishad" "PL123" "Katha Upanishad study" 12
            None]
    /\ playlists_at data "tattvamasi" "ongoing" "katha_upanishad"
       = [mkPlaylist "Katha Upanishad" "PL123" "Katha Upanishad study" 12
            (Some "VID99")].
Proof. eexists. repeat split. Qed.

End WorkedExample.

(** * Further properties of the code *)

(** ** Reading the rows *)

Section RowReading.





(** The loop raises exactly when the reader fails or a row cannot be read
    after rows that were all read; the exception is that of this first
    event, in the order in which the reader produces its events, and what
    the reader would produce after it plays no part. *)
Theorem process_reader_first_error (events : list fetched) (d : Document)
  (e : error) :
  process_reader events d = Raise e
  <-> exists pre x post,
        events = map Yields pre ++ x :: post
        /\ (exists fs, read_rows pre = Ok fs)
        /\ (x = Fails e
            \/ exists row, x = Yields row /\ read_row row = Raise e).
Proof.
  split; [apply process_reader_raises|].
  intros (pre & x & post & -> & [fs Hfs] & Hx).
  rewrite (process_reader_after_rows pre (x :: post) fs d Hfs).
  destruct Hx as [-> | (row & -> & Hrow)]; simpl; [reflexivity|].
  now rewrite Hrow.
Qed.

End RowReading.

(** ** The lookup tables *)

Section Tables.

(** A batch name gets an empty description exactly when the table has no
    entry for it as written, and then the name is shown as it is. *)
Theorem get_batch_info_fallback (raw : string) :
  (info_description (get_batch_info raw) = ""
   <-> ~ In raw ["Dhanyosi"; "Tattvamasi"; "Jignasu"; "Miscellaneous"])
  /\ (info_description (get_batch_info raw) = "" ->
      info_name (get_batch_info raw) = raw).
Proof.
  unfold get_batch_info, batch_info. simpl.
  repeat match goal with
         | |- context [String.eqb raw ?k] =>
             destruct (String.eqb_spec raw k) as [->|?]
         end; simpl;
    (split;
     [split; intros H;
      [try discriminate H; simpl; intuition congruence
      |try reflexivity; exfalso; apply H; simpl; auto 10]
     |intros H; try discriminate H; reflexivity]).
Qed.

(** A category name gets an empty description exactly when the table has
    no entry for it as written, and then the name is shown as it is. *)
Theorem get_category_info_fallback (raw : string) :
  (info_description (get_category_info raw) = ""
   <-> ~ In raw
           ["Upanishad"; "Bhagawad Gita"; "Prakaranam"; "Brahmasutram";
            "Satsang"])
  /\ (info_description (get_category_info raw) = "" ->
      info_name (get_category_info raw) = raw).
Proof.
  unfold get_category_info, category_info. simpl.
  repeat match goal with
         | |- context [String.eqb raw ?k] =>
             destruct (String.eqb_spec raw k) as [->|?]
         end; simpl;
    (split;
     [split; intros H;
      [try discriminate H; simpl; intuition congruence
      |try reflexivity; exfalso; apply H; simpl; auto 10]
     |intros H; try discriminate H; reflexivity]).
Qed.

End Tables.

(** ** Counts that are written out and read back *)

Section IntRoundTrip.

Lemma scan_uint_acc (d : Decimal.uint) :
  forall acc : positive,
    scan_digits (Z.pos acc) true (NilEmpty.string_of_uint d)
    = Some (Z.pos (Pos.of_uint_acc d acc)).
Proof.
  induction d; intros acc;
    cbn [NilEmpty.string_of_uint scan_digits Pos.of_uint_acc];
    [reflexivity | ..];
    match goal with
    | |- context [Str.is_digit ?c] => change (Str.is_digit c) with true
    end;
    match goal with
    | |- context [Str.digit_value ?c] =>
        let v := eval vm_compute in (Str.digit_value c) in
        change (Str.digit_value c) with v
    end;
    cbv iota; rewrite <- IHd; f_equal; lia.
Qed.

Lemma scan_uint (d : Decimal.uint) :
  forall b : bool,
    d <> Decimal.Nil \/ b = true ->
    scan_digits 0 b (NilEmpty.string_of_uint d)
    = Some (Z.of_N (Pos.of_uint d)).
Proof.
  induction d; intros b H; simpl;
    try (apply (scan_uint_acc d)).
  - destruct H as [H | ->]; [now destruct H | reflexivity].
  - apply IHd. now right.
Qed.

Lemma to_uint_not_Nil (p : positive) : Pos.to_uint p <> Decimal.Nil.
Proof.
  intros E. pose proof (DecimalPos.Unsigned.of_to p) as H.
  rewrite E in H. discriminate H.
Qed.

Lemma parse_uint (d : Decimal.uint) :
  d <> Decimal.Nil ->
  parse_int (NilEmpty.string_of_uint d) = Some (Z.of_N (Pos.of_uint d)).
Proof.
  intros H. rewrite <- (scan_uint d false (or_introl H)).
  destruct d; [now destruct H | reflexivity ..].
Qed.

Lemma string_of_uint_NilZero (d : Decimal.uint) :
  d <> Decimal.Nil ->
  NilZero.string_of_uint d = NilEmpty.string_of_uint d.
Proof. destruct d; [intros H; now destruct H | reflexivity ..]. Qed.

Lemma parse_int_int_str (z : Z) : parse_int (Json.int_str z) = Some z.
Proof.
  unfold Json.int_str. destruct z as [|p|p]; simpl.
  - reflexivity.
  - rewrite (string_of_uint_NilZero _ (to_uint_not_Nil p)).
    rewrite (parse_uint _ (to_uint_not_Nil p)).
    now rewrite DecimalPos.Unsigned.of_to.
  - rewrite (string_of_uint_NilZero _ (to_uint_not_Nil p)).
    rewrite (scan_uint _ false (or_introl (to_uint_not_Nil p))).
    now rewrite DecimalPos.Unsigned.of_to.
Qed.

Lemma lstrip_no_space (s : string) :
  Str.all_chars (fun c => negb (Str.isspace c)) s = true ->
  Str.lstrip s = s.
Proof.
  destruct s as [|c s]; simpl; [reflexivity|].
  now destruct (Str.isspace c).
Qed.

Lemma rstrip_no_space (s : string) :
  Str.all_chars (fun c => negb (Str.isspace c)) s = true ->
  Str.rstrip s = s.
Proof.
  induction s as [|c s IH]; simpl; [reflexivity|].
  destruct (Str.isspace c); [discriminate|]. simpl.
  intros H. now rewrite IH.
Qed.

Lemma string_of_uint_no_space (d : Decimal.uint) :
  Str.all_chars (fun c => negb (Str.isspace c)) (NilEmpty.string_of_uint d)
  = true.
Proof. induction d; simpl; [reflexivity | exact IHd ..]. Qed.

Lemma int_str_no_space (z : Z) :
  Str.all_chars (fun c => negb (Str.isspace c)) (Json.int_str z) = true.
Proof.
  unfold Json.int_str. destruct z as [|p|p]; simpl; [reflexivity | ..];
    rewrite (string_of_uint_NilZero _ (to_uint_not_Nil p));
    apply string_of_uint_no_space.
Qed.

(** A count of at most 4300 digits as [json.dump] writes it ([json.dump]
    writes no longer one), given back as a Video Count field, is read as
    the same number; this holds for negative counts too, which the reading
    does not refuse. *)
Theorem video_count_round_trip (z : Z) :
  digit_count (Json.int_str z) <= max_str_digits ->
  read_video_count (Value (Json.int_str z)) = Ok z.
Proof.
  intros L. apply read_video_count_numeric.
  unfold Str.strip.
  rewrite (lstrip_no_space _ (int_str_no_space z)).
  rewrite (rstrip_no_space _ (int_str_no_space z)).
  split; [|exact L]. apply parse_int_Numeric, parse_int_int_str.
Qed.

Lemma video_count_round_trip_witness :
  digit_count (Json.int_str (-12)) <= max_str_digits
  /\ read_video_count (Value (Json.int_str (-12))) = Ok (-12)%Z.
Proof.
  assert (digit_count (Json.int_str (-12)) <= max_str_digits) as L
    by (vm_compute; lia).
  split; [exact L | exact (video_count_round_trip (-12) L)].
Defined.

End IntRoundTrip.

(** ** Where a node comes from *)

Section Origins.

Variable f : Fields.

Lemma texts_step_origin (c : Target) (ts : Dict.t Text) (t : string)
  (z' : Text) :
  Dict.get t (texts_step f c ts) = Some z' ->
  (exists z, Dict.get t ts = Some z /\ text_kept z z')
  \/ (Dict.get t ts = None
      /\ t = text_key f
      /\ text_name_of z' = text_name f
      /\ text_description z' = (text_name f ++ " study")%string).
Proof.
  rewrite get_texts_step.
  destruct (String.eqb_spec t (text_key f)) as [->|Ht].
  - intros [= <-]. unfold text_or_new.
    destruct (Dict.get (text_key f) ts) as [z|].
    + left. exists z. split; [reflexivity|]. repeat split. simpl. eauto.
    + right. simpl. auto.
  - intros H. left. exists z'. split; [exact H | apply text_kept_refl].
Qed.

Lemma add_to_category_text_origin (c : Target) (cs : Dict.t Category)
  (k t : string) (z' : Text) :
  get_text (add_to_category f c cs) k t = Some z' ->
  (exists z, get_text cs k t = Some z /\ text_kept z z')
  \/ (get_text cs k t = None
      /\ k = key c /\ t = text_key f
      /\ text_name_of z' = text_name f
      /\ text_description z' = (text_name f ++ " study")%string).
Proof.
  unfold get_text. rewrite get_add_to_category.
  destruct (String.eqb_spec k (key c)) as [->|Hk].
  - simpl. intros H. apply texts_step_origin in H.
    unfold category_or_new in H.
    destruct (Dict.get (key c) cs) as [y|]; simpl in H.
    + destruct H as [H | (H & -> & N & D)]; [now left | right; auto].
    + destruct H as [(z & H & _) | (_ & -> & N & D)];
        [discriminate | right; auto].
  - destruct (Dict.get k cs) as [y|]; [|discriminate].
    intros H. left. exists z'. split; [exact H | apply text_kept_refl].
Qed.

Lemma add_to_category_text_kept (c : Target) (cs : Dict.t Category)
  (k t : string) (z : Text) :
  get_text cs k t = Some z ->
  exists z', get_text (add_to_category f c cs) k t = Some z'
             /\ text_kept z z'.
Proof.
  unfold get_text. destruct (Dict.get k cs) as [y|] eqn:E; [|discriminate].
  intros H.
  destruct (add_to_category_kept f c cs k y E) as (y' & -> & _ & _ & T).
  now apply T.
Qed.

Lemma categories_fold_text_origin (targets : list Target) :
  forall (cs : Dict.t Category) (k t : string) (z' : Text),
    get_text (fold_left (fun cs c => add_to_category f c cs) targets cs) k t
    = Some z' ->
    (exists z, get_text cs k t = Some z /\ text_kept z z')
    \/ (get_text cs k t = None
        /\ (exists c, In c targets /\ k = key c)
        /\ t = text_key f
        /\ text_name_of z' = text_name f
        /\ text_description z' = (text_name f ++ " study")%string).
Proof.
  induction targets as [|c targets IH]; intros cs k t z' H; simpl in H.
  - left. exists z'. split; [exact H | apply text_kept_refl].
  - apply IH in H.
    destruct H as [(z1 & H1 & K1) | (H1 & (c' & Hin & ->) & -> & N & D)].
    + destruct (add_to_category_text_origin c cs k t z1 H1)
        as [(z & H & K) | (H & -> & -> & N & D)].
      * left. exists z. split; [exact H|].
        now apply text_kept_trans with z1.
      * right. split; [exact H|]. split; [exists c; simpl; auto|].
        destruct K1 as (N1 & D1 & _). split; [reflexivity|].
        split; congruence.
    + right. split.
      * destruct (get_text cs (key c') (text_key f)) as [z|] eqn:E;
          [|reflexivity].
        destruct (add_to_category_text_kept c cs _ _ z E) as (z1 & E1 & _).
        congruence.
      * split; [exists c'; simpl; auto | auto].
Qed.

Lemma add_to_category_origin (c : Target) (cs : Dict.t Category)
  (k : string) (y' : Category) :
  Dict.get k (add_to_category f c cs) = Some y' ->
  (exists y, Dict.get k cs = Some y /\ category_kept y y')
  \/ (Dict.get k cs = None /\ k = key c).
Proof.
  destruct (Dict.get k cs) as [y|] eqn:E.
  - intros H. left. exists y. split; [reflexivity|].
    destruct (add_to_category_kept f c cs k y E) as (y1 & H1 & K1).
    congruence.
  - rewrite get_add_to_category.
    destruct (String.eqb_spec k (key c)) as [->|Hk]; [auto | congruence].
Qed.

Lemma categories_fold_origin (targets : list Target) :
  forall (cs : Dict.t Category) (k : string) (y' : Category),
    Dict.get k (fold_left (fun cs c => add_to_category f c cs) targets cs)
    = Some y' ->
    (exists y, Dict.get k cs = Some y /\ category_kept y y')
    \/ (Dict.get k cs = None /\ exists c, In c targets /\ k = key c).
Proof.
  induction targets as [|c targets IH]; intros cs k y' H; simpl in H.
  - left. exists y'. split; [exact H | apply category_kept_refl].
  - apply IH in H. destruct H as [(y1 & H1 & K1) | (H1 & c' & Hin & ->)].
    + destruct (add_to_category_origin c cs k y1 H1)
        as [(y & H & K) | (H & ->)].
      * left. exists y. split; [exact H|].
        now apply category_kept_trans with y1.
      * right. split; [exact H|]. exists c. simpl. auto.
    + right. split.
      * destruct (Dict.get (key c') cs) as [y|] eqn:E; [|reflexivity].
        destruct (add_to_category_kept f c cs _ y E) as (y1 & E1 & _).
        congruence.
      * exists c'. simpl. auto.
Qed.

Variable d : Document.

(** A batch of the document after the step was there before it, or is the
    batch of the record. *)
Lemma find_batch_origin (b : string) (x' : Batch) :
  find_batch (add_record f d) b = Some x' ->
  (exists x, find_batch d b = Some x /\ batch_kept x x')
  \/ (find_batch d b = None /\ b = batch_key f).
Proof.
  destruct (find_batch d b) as [x|] eqn:E.
  - intros H. left. exists x. split; [reflexivity|].
    destruct (add_record_kept f d b x E) as (x1 & H1 & K1). congruence.
  - rewrite get_add_record.
    destruct (String.eqb_spec b (batch_key f)) as [->|Hb]; [auto | congruence].
Qed.

Lemma find_category_unfold (d0 : Document) (b c : string) :
  find_category d0 b c
  = match find_batch d0 b with
    | Some x => Dict.get c (categories x)
    | None => None
    end.
Proof. reflexivity. Qed.

Lemma find_text_unfold (d0 : Document) (b c t : string) :
  find_text d0 b c t
  = match find_batch d0 b with
    | Some x => get_text (categories x) c t
    | None => None
    end.
Proof.
  unfold find_text, find_category, get_text.
  now destruct (find_batch d0 b).
Qed.

Lemma find_category_origin (b c : string) (y' : Category) :
  find_category (add_record f d) b c = Some y' ->
  (exists y, find_category d b c = Some y /\ category_kept y y')
  \/ (find_category d b c = None
      /\ b = batch_key f
      /\ exists tg, In tg (categories_to_add f) /\ c = key tg).
Proof.
  rewrite !find_category_unfold, get_add_record.
  destruct (String.eqb_spec b (batch_key f)) as [->|Hb].
  - simpl. unfold categories_step. intros H.
    apply categories_fold_origin in H. unfold batch_or_new in H.
    unfold find_batch.
    destruct (Dict.get (batch_key f) (batches d)) as [x|]; simpl in H.
    + destruct H as [H | [H T]]; [now left | right; auto].
    + destruct H as [(y & H & _) | [_ T]]; [discriminate | right; auto].
  - destruct (find_batch d b) as [x|]; [|discriminate].
    intros H. left. exists y'. split; [exact H | apply category_kept_refl].
Qed.

Lemma find_text_origin (b c t : string) (z' : Text) :
  find_text (add_record f d) b c t = Some z' ->
  (exists z, find_text d b c t = Some z /\ text_kept z z')
  \/ (find_text d b c t = None
      /\ b = batch_key f
      /\ (exists tg, In tg (categories_to_add f) /\ c = key tg)
      /\ t = text_key f
      /\ text_name_of z' = text_name f
      /\ text_description z' = (text_name f ++ " study")%string).
Proof.
  rewrite !find_text_unfold, get_add_record.
  destruct (String.eqb_spec b (batch_key f)) as [->|Hb].
  - simpl. unfold categories_step. intros H.
    apply categories_fold_text_origin in H. unfold batch_or_new in H.
    unfold find_batch.
    destruct (Dict.get (batch_key f) (batches d)) as [x|]; simpl in H.
    + destruct H as [H | (H & T & E & N & D)]; [now left | right; auto 6].
    + destruct H as [(z & H & _) | (_ & T & E & N & D)];
        [discriminate | right; auto 6].
  - destruct (find_batch d b) as [x|]; [|discriminate].
    intros H. left. exists z'. split; [exact H | apply text_kept_refl].
Qed.

End Origins.

(** ** What holds of every finished document *)

Section Finished.

Lemma add_records_inv (P : Document -> Prop) :
  (forall f d, P d -> P (add_record f d)) ->
  forall fs d, P d -> P (add_records fs d).
Proof.
  intros step. induction fs as [|f fs IH]; intros d H; [exact H|].
  apply (IH (add_record f d)), step, H.
Qed.

Lemma build_data_Ok (today : string) (rows : list Row) (data : Document) :
  build_data today rows = Ok data ->
  exists fs,
    read_rows rows = Ok fs
    /\ data
       = with_metadata
           (calculate_metadata (add_records fs (initial_data today)))
           (add_records fs (initial_data today)).
Proof.
  unfold build_data.
  destruct (process_rows rows (initial_data today)) as [d|e] eqn:E;
    [|discriminate].
  simpl. intros [= <-].
  destruct (process_rows_Ok _ _ _ E) as (fs & Hfs & ->). eauto.
Qed.

Lemma target_keys (f : Fields) (tg : Target) :
  In tg (categories_to_add f) ->
  key tg = natural_category_key f
  \/ (is_ongoing f = true /\ key tg = "ongoing").
Proof.
  unfold categories_to_add. simpl. intros [<- | H]; [now left|].
  destruct (is_ongoing f); [|now destruct H].
  destruct H as [<- | []]. now right.
Qed.

Lemma entries_for_target (f : Fields) (tg : Target) :
  In tg (categories_to_add f) ->
  entries_for (batch_key f) (key tg) (text_key f) f <> [].
Proof.
  intros H. unfold entries_for. rewrite !String.eqb_refl. cbn [andb].
  assert (In tg (filter (fun target => String.eqb (key tg) (key target))
                   (categories_to_add f))) as Hin.
  { apply filter_In. split; [exact H | apply String.eqb_refl]. }
  destruct (filter (fun target => String.eqb (key tg) (key target))
              (categories_to_add f));
    [destruct Hin | simpl; discriminate].
Qed.

Lemma playlists_at_find_text (d : Document) (b c t : string) (z : Text) :
  find_text d b c t = Some z -> playlists_at d b c t = playlists z.
Proof. unfold playlists_at. now intros ->. Qed.

Lemma add_record_has_text (f : Fields) (d : Document) (tg : Target) :
  In tg (categories_to_add f) ->
  exists z,
    find_text (add_record f d) (batch_key f) (key tg) (text_key f) = Some z.
Proof.
  intros H. pose proof (entries_for_target f tg H) as Hne.
  pose proof (playlists_at_add_record f d (batch_key f) (key tg) (text_key f))
    as E.
  unfold playlists_at in E at 1.
  destruct (find_text (add_record f d) (batch_key f) (key tg) (text_key f))
    as [z|]; [eauto|].
  symmetry in E. apply app_eq_nil in E. now destruct E.
Qed.

Lemma natural_target (f : Fields) :
  exists tg, In tg (categories_to_add f) /\ key tg = natural_category_key f.
Proof. eexists. split; [left; reflexivity | reflexivity]. Qed.

Lemma texts_named_step (f : Fields) (d : Document) :
  texts_named d -> texts_named (add_record f d).
Proof.
  intros HT b c t z H.
  destruct (find_text_origin f d b c t z H)
    as [(z0 & H0 & N & D & _) | (_ & _ & _ & -> & N & D)].
  - destruct (HT b c t z0 H0) as [N0 D0]. split; congruence.
  - split; [now rewrite N | now rewrite N, D].
Qed.

Lemma nonempty_has_key {V : Type} (l : Dict.t V) :
  l <> [] -> exists k v, Dict.get k l = Some v.
Proof.
  destruct l as [|[k v] l]; [easy|]. intros _. exists k, v. simpl.
  now rewrite String.eqb_refl.
Qed.

Lemma has_key_nonempty {V : Type} (l : Dict.t V) (k : string) (v : V) :
  Dict.get k l = Some v -> l <> [].
Proof. now destruct l. Qed.

Lemma nothing_empty_step (f : Fields) (d : Document) :
  nothing_empty d -> nothing_empty (add_record f d).
Proof.
  intros (HB & HC & HT). repeat split.
  - intros b x H.
    destruct (find_batch_origin f d b x H) as [(x0 & H0 & K) | (_ & ->)].
    + destruct (nonempty_has_key _ (HB b x0 H0)) as (c & y & Hy).
      destruct K as (_ & _ & K). destruct (K c y Hy) as (y' & Hy' & _).
      now apply has_key_nonempty with c y'.
    + destruct (natural_target f) as (tg & Hin & _).
      destruct (add_record_has_text f d tg Hin) as [z Hz].
      rewrite find_text_unfold, H in Hz. unfold get_text in Hz.
      destruct (Dict.get (key tg) (categories x)) as [y|] eqn:E;
        [|discriminate].
      now apply has_key_nonempty with (key tg) y.
  - intros b c y H.
    destruct (find_category_origin f d b c y H)
      as [(y0 & H0 & K) | (_ & -> & tg & Hin & ->)].
    + destruct (nonempty_has_key _ (HC b c y0 H0)) as (t & z & Hz).
      destruct K as (_ & _ & K). destruct (K t z Hz) as (z' & Hz' & _).
      now apply has_key_nonempty with t z'.
    + destruct (add_record_has_text f d tg Hin) as [z Hz].
      unfold find_text in Hz. rewrite H in Hz.
      now apply has_key_nonempty with (text_key f) z.
  - intros b c t z H.
    destruct (find_text_origin f d b c t z H)
      as [(z0 & H0 & _ & _ & more & E) | (H0 & -> & (tg & Hin & ->) & -> & _)].
    + rewrite E. intros E'. apply app_eq_nil in E'.
      now apply (HT b c t z0 H0).
    + pose proof (playlists_at_add_record f d (batch_key f) (key tg)
                    (text_key f)) as E.
      rewrite (playlists_at_find_text _ _ _ _ _ H) in E.
      unfold playlists_at in E. rewrite H0 in E. simpl in E.
      rewrite E. now apply entries_for_target.
Qed.

End Finished.

Section FinishedDocuments.

Lemma initial_nothing_empty (today : string) :
  nothing_empty (initial_data today).
Proof. repeat split; discriminate. Qed.

Lemma initial_texts_named (today : string) : texts_named (initial_data today).
Proof. intros b c t z H. discriminate H. Qed.

Lemma read_rows_In (rows : list Row) :
  forall fs f,
    read_rows rows = Ok fs -> In f fs ->
    exists row, In row rows /\ read_row row = Ok f.
Proof.
  induction rows as [|r rows IH]; intros fs f; simpl.
  - intros [= <-] [].
  - destruct (read_row r) as [f0|] eqn:Er; [|discriminate]. simpl.
    destruct (read_rows rows) as [fs0|]; [|discriminate]. simpl.
    intros [= <-] [<- | Hin].
    + exists r. auto.
    + destruct (IH fs0 f eq_refl Hin) as (row & Hrow & E).
      exists row. auto.
Qed.

Lemma In_read_rows (rows : list Row) :
  forall fs row,
    read_rows rows = Ok fs -> In row rows ->
    exists f, read_row row = Ok f /\ In f fs.
Proof.
  induction rows as [|r rows IH]; intros fs row; simpl.
  - intros _ [].
  - destruct (read_row r) as [f0|] eqn:Er; [|discriminate]. simpl.
    destruct (read_rows rows) as [fs0|]; [|discriminate]. simpl.
    intros [= <-] [<- | Hin].
    + exists f0. simpl. auto.
    + destruct (IH fs0 row eq_refl Hin) as (f & E & Hf).
      exists f. simpl. auto.
Qed.

Lemma In_entries_for (b c t : string) (f : Fields) (p : Playlist) :
  In p (entries_for b c t f) ->
  b = batch_key f /\ t = text_key f
  /\ (exists tg, In tg (categories_to_add f) /\ c = key tg)
  /\ p = playlist_entry f c.
Proof.
  unfold entries_for.
  destruct (String.eqb_spec b (batch_key f)) as [->|]; [|intros []].
  destruct (String.eqb_spec t (text_key f)) as [->|]; [|intros []].
  cbn [andb]. intros H. apply in_map_iff in H as (tg & <- & H).
  apply filter_In in H as [Hin E]. apply String.eqb_eq in E. subst c.
  eauto 6.
Qed.

Lemma playlists_at_finished (today : string) (fs : list Fields)
  (b c t : string) :
  playlists_at
    (with_metadata
       (calculate_metadata (add_records fs (initial_data today)))
       (add_records fs (initial_data today))) b c t
  = List.flat_map (entries_for b c t) fs.
Proof.
  change (playlists_at (add_records fs (initial_data today)) b c t
          = List.flat_map (entries_for b c t) fs).
  now rewrite playlists_at_add_records.
Qed.

(** A finished document has no empty level: every batch has a category,
    every category a text, every text a playlist entry. *)
Theorem finished_nothing_empty (today : string) (rows : list Row)
  (data : Document) :
  build_data today rows = Ok data ->
  (forall b x, find_batch data b = Some x -> categories x <> [])
  /\ (forall b c y, find_category data b c = Some y -> texts y <> [])
  /\ (forall b c t z, find_text data b c t = Some z -> playlists z <> []).
Proof.
  intros H. destruct (build_data_Ok _ _ _ H) as (fs & _ & ->).
  exact (add_records_inv nothing_empty nothing_empty_step fs _
           (initial_nothing_empty today)).
Qed.

Lemma finished_nothing_empty_witness :
  exists data,
    build_data "2026-01-01" [row_katha; row_blank_count] = Ok data
    /\ (forall b x, find_batch data b = Some x -> categories x <> [])
    /\ (forall b c y, find_category data b c = Some y -> texts y <> [])
    /\ (forall b c t z, find_text data b c t = Some z -> playlists z <> []).
Proof.
  eexists. split; [vm_compute; reflexivity|].
  apply (finished_nothing_empty "2026-01-01" [row_katha; row_blank_count]).
  reflexivity.
Defined.

(** In a finished document every text is stored under the key of its own
    display name and is described as that name followed by " study", and
    the same holds of every playlist entry in its list: an entry is never
    filed under a text of another key. *)
Theorem finished_texts_named (today : string) (rows : list Row)
  (data : Document) :
  build_data today rows = Ok data ->
  (forall b c t z,
      find_text data b c t = Some z ->
      normalize_key (text_name_of z) = t
      /\ text_description z = (text_name_of z ++ " study")%string)
  /\ (forall b c t p,
        In p (playlists_at data b c t) ->
        normalize_key (pl_name p) = t
        /\ pl_description p = (pl_name p ++ " study")%string).
Proof.
  intros H. destruct (build_data_Ok _ _ _ H) as (fs & _ & ->). split.
  - exact (add_records_inv texts_named texts_named_step fs _
             (initial_texts_named today)).
  - intros b c t p Hp. rewrite playlists_at_finished in Hp.
    apply in_flat_map in Hp as (f & _ & Hp).
    apply In_entries_for in Hp as (_ & -> & _ & ->). now split.
Qed.

Lemma finished_texts_named_witness :
  exists data,
    build_data "2026-01-01" [row_katha; row_blank_count] = Ok data
    /\ (forall b c t z,
          find_text data b c t = Some z ->
          normalize_key (text_name_of z) = t
          /\ text_description z = (text_name_of z ++ " study")%string)
    /\ (forall b c t p,
          In p (playlists_at data b c t) ->
          normalize_key (pl_name p) = t
          /\ pl_description p = (pl_name p ++ " study")%string).
Proof.
  eexists. split; [vm_compute; reflexivity|].
  apply (finished_texts_named "2026-01-01" [row_katha; row_blank_count]).
  reflexivity.
Defined.

(** Every playlist entry of a finished document comes from a row of the
    input, filed under the keys of that row, and every row that was read
    has left its entry in the text of its natural category. *)
Theorem entries_come_from_rows (today : string) (rows : list Row)
  (data : Document) :
  build_data today rows = Ok data ->
  (forall b c t p,
      In p (playlists_at data b c t) ->
      exists row f,
        In row rows /\ read_row row = Ok f
        /\ b = batch_key f /\ t = text_key f
        /\ (c = natural_category_key f
            \/ (is_ongoing f = true /\ c = "ongoing"))
        /\ p = playlist_entry f c)
  /\ (forall row,
        In row rows ->
        exists f,
          read_row row = Ok f
          /\ In (playlist_entry f (natural_category_key f))
               (playlists_at data (batch_key f) (natural_category_key f)
                  (text_key f))).
Proof.
  intros H. destruct (build_data_Ok _ _ _ H) as (fs & Hfs & ->). split.
  - intros b c t p Hp. rewrite playlists_at_finished in Hp.
    apply in_flat_map in Hp as (f & Hf & Hp).
    destruct (read_rows_In rows fs f Hfs Hf) as (row & Hrow & E).
    apply In_entries_for in Hp as (-> & -> & (tg & Hin & ->) & ->).
    exists row, f. repeat split; auto. now apply target_keys.
  - intros row Hrow.
    destruct (In_read_rows rows fs row Hfs Hrow) as (f & E & Hf).
    exists f. split; [exact E|]. rewrite playlists_at_finished.
    apply in_flat_map. exists f. split; [exact Hf|].
    destruct (entries_for_natural f) as [rest ->]. now left.
Qed.

Lemma entries_come_from_rows_witness :
  exists data,
    build_data "2026-01-01" [row_katha; row_blank_count] = Ok data
    /\ (forall b c t p,
          In p (playlists_at data b c t) ->
          exists row f,
            In row [row_katha; row_blank_count] /\ read_row row = Ok f
            /\ b = batch_key f /\ t = text_key f
            /\ (c = natural_category_key f
                \/ (is_ongoing f = true /\ c = "ongoing"))
            /\ p = playlist_entry f c)
    /\ (forall row,
          In row [row_katha; row_blank_count] ->
          exists f,
            read_row row = Ok f
            /\ In (playlist_entry f (natural_category_key f))
                 (playlists_at data (batch_key f) (natural_category_key f)
                    (text_key f))).
Proof.
  eexists. split; [vm_compute; reflexivity|].
  apply (entries_come_from_rows "2026-01-01" [row_katha; row_blank_count]).
  reflexivity.
Defined.

(** In a finished document a latest-video identifier is found only on
    entries under the category key "ongoing", and it is never the empty
    string: a blank Latest Link leaves the field out. *)
Theorem latest_video_id_placement (today : string) (rows : list Row)
  (data : Document) :
  build_data today rows = Ok data ->
  forall b c t p link,
    In p (playlists_at data b c t) ->
    pl_latest_video_id p = Some link ->
    c = "ongoing" /\ link <> "" /\ Str.strip link = link.
Proof.
  intros H b c t p link Hp Hl.
  destruct (build_data_Ok _ _ _ H) as (fs & Hfs & ->).
  rewrite playlists_at_finished in Hp.
  apply in_flat_map in Hp as (f & Hf & Hp).
  destruct (read_rows_In rows fs f Hfs Hf) as (row & _ & E).
  apply In_entries_for in Hp as (_ & _ & _ & ->).
  destruct (read_row_flags row f E) as (o & l & _ & _ & _ & L).
  unfold playlist_entry in Hl. simpl in Hl. rewrite L in Hl.
  destruct (Str.is_empty (Str.strip l)) eqn:El; [discriminate|].
  destruct (is_ongoing f); simpl in Hl; [|discriminate].
  destruct (String.eqb_spec c "ongoing") as [->|]; [|discriminate].
  injection Hl as <-. split; [reflexivity|]. split.
  - intros E0. rewrite E0 in El. discriminate El.
  - apply strip_idem.
Qed.

Lemma latest_video_id_placement_witness :
  exists data,
    build_data "2026-01-01" [row_katha] = Ok data
    /\ In (ongoing_entry fields_katha)
         (playlists_at data "tattvamasi" "ongoing" "katha_upanishad")
    /\ "ongoing" = "ongoing" /\ "VID99" <> "" /\ Str.strip "VID99" = "VID99".
Proof.
  eexists. split; [vm_compute; reflexivity|].
  split; [left; reflexivity|].
  apply (latest_video_id_placement "2026-01-01" [row_katha] _ eq_refl
           "tattvamasi" "ongoing" "katha_upanishad"
           (ongoing_entry fields_katha) "VID99").
  - left. reflexivity.
  - reflexivity.
Defined.

End FinishedDocuments.

(** ** How the counts grow *)

Section Growth.

Lemma total_adjust {V : Type} (g : V -> nat) (h : V -> V) (n : nat)
  (k : string) (d : Dict.t V) :
  (forall v, g (h v) = g v + n) ->
  Dict.contains k d = true ->
  total g (Dict.adjust h k d) = total g d + n.
Proof.
  intros Hh. unfold Dict.contains, total.
  induction d as [|[k0 v0] d IH]; simpl; [discriminate|].
  destruct (String.eqb k k0); simpl.
  - intros _. rewrite Hh. lia.
  - intros H. rewrite (IH H). lia.
Qed.

Lemma total_setitem_new {V : Type} (g : V -> nat) (k : string) (v : V)
  (d : Dict.t V) :
  Dict.contains k d = false ->
  total g (Dict.setitem k v d) = total g d + g v.
Proof.
  intros H. unfold Dict.setitem, total. rewrite H, map_app, list_sum_app.
  simpl. lia.
Qed.

Lemma contains_get {V : Type} (k : string) (d : Dict.t V) (v : V) :
  Dict.get k d = Some v -> Dict.contains k d = true.
Proof. unfold Dict.contains. now intros ->. Qed.

Variable f : Fields.

Lemma texts_step_total (c : Target) (ts : Dict.t Text) :
  playlists_in_texts (texts_step f c ts) = playlists_in_texts ts + 1.
Proof.
  unfold playlists_in_texts, texts_step.
  rewrite (total_adjust _ _ 1).
  - unfold ensure_text.
    destruct (Dict.contains (normalize_key (text_name f)) ts) eqn:E;
      [reflexivity|].
    rewrite (total_setitem_new _ _ _ _ E). simpl. lia.
  - intros z. simpl. rewrite length_app. reflexivity.
  - apply contains_get with (text_or_new f ts).
    rewrite get_ensure_text. now rewrite String.eqb_refl.
Qed.

Lemma add_to_category_total (c : Target) (cs : Dict.t Category) :
  playlists_in_categories (add_to_category f c cs)
  = playlists_in_categories cs + 1.
Proof.
  unfold playlists_in_categories, add_to_category.
  rewrite (total_adjust _ _ 1).
  - unfold ensure_category.
    destruct (Dict.contains (key c) cs) eqn:E; [reflexivity|].
    rewrite (total_setitem_new _ _ _ _ E).
    unfold playlists_in_texts, total. simpl. lia.
  - intros y. simpl. apply (texts_step_total c).
  - apply contains_get with (category_or_new c cs).
    rewrite get_ensure_category. now rewrite String.eqb_refl.
Qed.

Lemma categories_fold_total (targets : list Target) :
  forall cs : Dict.t Category,
    playlists_in_categories
      (fold_left (fun cs c => add_to_category f c cs) targets cs)
    = playlists_in_categories cs + List.length targets.
Proof.
  induction targets as [|c targets IH]; intros cs; simpl; [lia|].
  rewrite IH, add_to_category_total. lia.
Qed.

(** One step adds as many playlist entries as the record has target
    categories, whatever the document holds already. *)
Lemma count_playlists_add_record (d : Document) :
  count_playlists (add_record f d)
  = count_playlists d + List.length (categories_to_add f).
Proof.
  change (total (fun x => playlists_in_categories (categories x))
            (batches (add_record f d))
          = total (fun x => playlists_in_categories (categories x))
              (batches d)
            + List.length (categories_to_add f)).
  unfold add_record. simpl batches.
  rewrite (total_adjust _ _ (List.length (categories_to_add f))).
  - unfold ensure_batch.
    destruct (Dict.contains (normalize_key (batch_name f)) (batches d))
      eqn:E; [reflexivity|].
    rewrite (total_setitem_new _ _ _ _ E).
    unfold playlists_in_categories, total. simpl. lia.
  - intros x. exact (categories_fold_total (categories_to_add f) (categories x)).
  - apply contains_get with (batch_or_new f (batches d)).
    rewrite get_ensure_batch. now rewrite String.eqb_refl.
Qed.

End Growth.

Section Totals.

Lemma count_playlists_add_records (fs : list Fields) :
  forall d : Document,
    count_playlists (add_records fs d)
    = count_playlists d
      + List.length fs + List.length (ongoing_records fs).
Proof.
  induction fs as [|f fs IH]; intros d; [simpl; lia|].
  change (add_records (f :: fs) d) with (add_records fs (add_record f d)).
  rewrite IH, count_playlists_add_record.
  unfold categories_to_add, ongoing_records. simpl.
  destruct (is_ongoing f); simpl; lia.
Qed.

Lemma read_rows_length (rows : list Row) :
  forall fs, read_rows rows = Ok fs -> List.length fs = List.length rows.
Proof.
  induction rows as [|r rows IH]; intros fs; simpl.
  - now intros [= <-].
  - destruct (read_row r); [|discriminate]. simpl.
    destruct (read_rows rows) as [fs0|]; [|discriminate]. simpl.
    intros [= <-]. simpl. now rewrite (IH fs0).
Qed.

(** The playlist total of a finished document is the number of rows plus
    the number of ongoing rows: every row leaves one entry, and one more
    when it is ongoing, whatever keys the rows share. *)
Theorem total_playlists_from_rows (today : string) (rows : list Row)
  (data : Document) :
  build_data today rows = Ok data ->
  exists fs m,
    read_rows rows = Ok fs
    /\ metadata data = Some m
    /\ total_playlists m
       = Z.of_nat (List.length rows + List.length (ongoing_records fs)).
Proof.
  intros H. destruct (build_data_Ok _ _ _ H) as (fs & Hfs & ->).
  exists fs. eexists. split; [exact Hfs|]. split; [reflexivity|].
  simpl metadata.
  rewrite total_playlists_sum, count_playlists_add_records.
  rewrite (read_rows_length rows fs Hfs). reflexivity.
Qed.

Lemma total_playlists_from_rows_witness :
  exists data,
    build_data "2026-01-01" [row_katha; row_blank_count; row_katha] = Ok data
    /\ exists fs m,
        read_rows [row_katha; row_blank_count; row_katha] = Ok fs
        /\ metadata data = Some m
        /\ total_playlists m
           = Z.of_nat
               (List.length [row_katha; row_blank_count; row_katha]
                + List.length (ongoing_records fs)).
Proof.
  eexists. split; [vm_compute; reflexivity|].
  apply (total_playlists_from_rows "2026-01-01"
           [row_katha; row_blank_count; row_katha]).
  reflexivity.
Defined.

Lemma NoDup_get {V : Type} (d : Dict.t V) (k : string) (v : V) :
  NoDup (Dict.keys d) -> In (k, v) d -> Dict.get k d = Some v.
Proof.
  induction d as [|[k0 v0] d IH]; simpl; [intros _ []|].
  intros N [[= -> ->] | Hin].
  - now rewrite String.eqb_refl.
  - inversion N as [|? ? Hk0 N']; subst.
    destruct (String.eqb_spec k k0) as [->|]; [|now apply IH].
    destruct Hk0. unfold Dict.keys. apply in_map_iff. now exists (k0, v).
Qed.

Lemma list_sum_le_In {A : Type} (g h : A -> nat) (l : list A) :
  (forall a, In a l -> g a <= h a) ->
  list_sum (map g l) <= list_sum (map h l).
Proof.
  induction l as [|a l IH]; intros H; simpl; [lia|].
  pose proof (H a (or_introl eq_refl)).
  assert (list_sum (map g l) <= list_sum (map h l))
    by (apply IH; intros b Hb; apply H; now right).
  lia.
Qed.

Lemma list_sum_ones {A : Type} (l : list A) :
  list_sum (map (fun _ => 1) l) = List.length l.
Proof. induction l as [|a l IH]; simpl; [reflexivity | now rewrite IH]. Qed.

Lemma nonempty_length {A : Type} (l : list A) : l <> [] -> 1 <= List.length l.
Proof. destruct l; [easy | simpl; lia]. Qed.

Lemma counts_ordered (d : Document) :
  unique_keys d -> nothing_empty d ->
  List.length (batches d) <= count_categories d
  /\ count_categories d <= count_texts d
  /\ count_texts d <= count_playlists d.
Proof.
  intros [Nb Ub] (Eb & Ec & Et).
  assert (forall bx, In bx (batches d) ->
                     find_batch d (fst bx) = Some (snd bx)) as Fb.
  { intros [b x] Hin. now apply NoDup_get. }
  assert (forall bx cy, In bx (batches d) -> In cy (categories (snd bx)) ->
                        find_category d (fst bx) (fst cy) = Some (snd cy))
    as Fc.
  { intros bx [c y] Hb Hc. unfold find_category. rewrite (Fb bx Hb).
    apply NoDup_get; [|exact Hc].
    rewrite Forall_forall in Ub. now destruct (Ub bx Hb). }
  assert (forall bx cy tz,
             In bx (batches d) -> In cy (categories (snd bx)) ->
             In tz (texts (snd cy)) ->
             find_text d (fst bx) (fst cy) (fst tz) = Some (snd tz)) as Ft.
  { intros bx cy [t z] Hb Hc Ht. unfold find_text.
    rewrite (Fc bx cy Hb Hc).
    apply NoDup_get; [|exact Ht].
    rewrite Forall_forall in Ub. destruct (Ub bx Hb) as [_ Uc].
    rewrite Forall_forall in Uc. exact (Uc cy Hc). }
  unfold count_categories, count_texts, count_playlists.
  split; [|split].
  - rewrite <- list_sum_ones. apply list_sum_le_In. intros bx Hb.
    apply nonempty_length, (Eb (fst bx)), Fb, Hb.
  - apply list_sum_le_In. intros bx Hb.
    rewrite <- list_sum_ones. apply list_sum_le_In. intros cy Hc.
    apply nonempty_length, (Ec (fst bx) (fst cy)), Fc; assumption.
  - apply list_sum_le_In. intros bx Hb.
    apply list_sum_le_In. intros cy Hc.
    rewrite <- list_sum_ones. apply list_sum_le_In. intros tz Ht.
    apply nonempty_length, (Et (fst bx) (fst cy) (fst tz)), Ft; assumption.
Qed.

(** In the metadata of a finished document there are at most as many
    batches as categories, as many categories as texts, and as many texts
    as playlist entries, and no count is negative. *)
Theorem metadata_counts_ordered (today : string) (rows : list Row)
  (data : Document) :
  build_data today rows = Ok data ->
  exists m,
    metadata data = Some m
    /\ (0 <= total_batches m <= total_categories m)%Z
    /\ (total_categories m <= total_texts m)%Z
    /\ (total_texts m <= total_playlists m)%Z.
Proof.
  intros H. destruct (build_data_Ok _ _ _ H) as (fs & _ & ->).
  eexists. split; [reflexivity|].
  set (d := add_records fs (initial_data today)).
  assert (unique_keys d) as U
    by apply (add_records_unique fs), initial_data_unique.
  assert (nothing_empty d) as E
    by exact (add_records_inv nothing_empty nothing_empty_step fs _
                (initial_nothing_empty today)).
  destruct (counts_ordered d U E) as (H1 & H2 & H3).
  rewrite total_categories_sum, total_texts_sum, total_playlists_sum.
  unfold calculate_metadata, len. simpl total_batches. lia.
Qed.

Lemma metadata_counts_ordered_witness :
  exists data,
    build_data "2026-01-01" [row_katha; row_blank_count; row_katha] = Ok data
    /\ exists m,
        metadata data = Some m
        /\ (0 <= total_batches m <= total_categories m)%Z
        /\ (total_categories m <= total_texts m)%Z
        /\ (total_texts m <= total_playlists m)%Z.
Proof.
  eexists. split; [vm_compute; reflexivity|].
  apply (metadata_counts_ordered "2026-01-01"
           [row_katha; row_blank_count; row_katha]).
  reflexivity.
Defined.

End Totals.

(** ** Order of the batches *)

Section BatchOrder.

Lemma contains_existsb {V : Type} (k : string) (d : Dict.t V) :
  Dict.contains k d = existsb (String.eqb k) (Dict.keys d).
Proof.
  unfold Dict.contains. induction d as [|[k0 v0] d IH]; simpl; [reflexivity|].
  now destruct (String.eqb k k0).
Qed.

Lemma keys_add_record (f : Fields) (d : Document) :
  Dict.keys (batches (add_record f d))
  = Dict.keys (batches d)
    ++ (if Dict.contains (batch_key f) (batches d) then []
        else [batch_key f]).
Proof.
  unfold add_record. simpl batches. rewrite keys_adjust.
  unfold ensure_batch. fold (batch_key f).
  destruct (Dict.contains (batch_key f) (batches d)) eqn:E.
  - now rewrite app_nil_r.
  - unfold Dict.setitem. rewrite E. unfold Dict.keys.
    now rewrite map_app.
Qed.

Lemma keys_add_records (fs : list Fields) :
  forall d : Document,
    Dict.keys (batches (add_records fs d))
    = Dict.keys (batches d)
      ++ new_keys (Dict.keys (batches d)) (map batch_key fs).
Proof.
  induction fs as [|f fs IH]; intros d; [simpl; now rewrite app_nil_r|].
  change (add_records (f :: fs) d) with (add_records fs (add_record f d)).
  rewrite IH, keys_add_record. simpl map. simpl new_keys.
  rewrite <- contains_existsb.
  destruct (Dict.contains (batch_key f) (batches d)).
  - now rewrite app_nil_r.
  - now rewrite <- app_assoc.
Qed.

(** The batches of a finished document stand in the order in which their
    keys first occur in the input, each key once. *)
Theorem batches_in_order_of_first_row (today : string) (rows : list Row)
  (data : Document) :
  build_data today rows = Ok data ->
  exists fs,
    read_rows rows = Ok fs
    /\ Dict.keys (batches data) = new_keys [] (map batch_key fs).
Proof.
  intros H. destruct (build_data_Ok _ _ _ H) as (fs & Hfs & ->).
  exists fs. split; [exact Hfs|].
  exact (keys_add_records fs (initial_data today)).
Qed.

Lemma batches_in_order_of_first_row_witness :
  exists data,
    build_data "2026-01-01" [row_blank_count; row_katha; row_satsang]
    = Ok data
    /\ exists fs,
        read_rows [row_blank_count; row_katha; row_satsang] = Ok fs
        /\ Dict.keys (batches data) = new_keys [] (map batch_key fs).
Proof.
  eexists. split; [vm_compute; reflexivity|].
  apply (batches_in_order_of_first_row "2026-01-01"
           [row_blank_count; row_katha; row_satsang]).
  reflexivity.
Defined.

End BatchOrder.

(** ** What a step leaves alone *)

Section Frame.

Variable f : Fields.

Lemma get_text_add_to_category_other (c : Target) (cs : Dict.t Category)
  (k t : string) :
  k <> key c \/ t <> text_key f ->
  get_text (add_to_category f c cs) k t = get_text cs k t.
Proof.
  intros H. unfold get_text. rewrite get_add_to_category.
  destruct (String.eqb_spec k (key c)) as [->|Hk]; [|reflexivity].
  destruct H as [H | Ht]; [now destruct H|].
  simpl. rewrite get_texts_step.
  apply String.eqb_neq in Ht. rewrite Ht. unfold category_or_new.
  now destruct (Dict.get (key c) cs).
Qed.

Lemma get_text_fold_other (targets : list Target) :
  forall (cs : Dict.t Category) (k t : string),
    ~ In k (map key targets) \/ t <> text_key f ->
    get_text (fold_left (fun cs c => add_to_category f c cs) targets cs) k t
    = get_text cs k t.
Proof.
  induction targets as [|c targets IH]; intros cs k t H; simpl;
    [reflexivity|].
  rewrite IH.
  - apply get_text_add_to_category_other.
    destruct H as [H | H]; [left | now right].
    intros ->. apply H. simpl. auto.
  - destruct H as [H | H]; [left | now right].
    intros Hin. apply H. simpl. auto.
Qed.

Lemma get_fold_other (targets : list Target) :
  forall (cs : Dict.t Category) (k : string),
    ~ In k (map key targets) ->
    Dict.get k (fold_left (fun cs c => add_to_category f c cs) targets cs)
    = Dict.get k cs.
Proof.
  induction targets as [|c targets IH]; intros cs k H; simpl; [reflexivity|].
  rewrite IH by (intros Hin; apply H; simpl; auto).
  rewrite get_add_to_category.
  destruct (String.eqb_spec k (key c)) as [->|]; [|reflexivity].
  destruct H. simpl. auto.
Qed.

(** The step for a record changes no batch but its own, in that batch no
    category but its targets, and in those no text but its own: every
    other node is afterwards exactly what it was. *)
Theorem add_record_touches_only_its_keys (d : Document) :
  (forall b, b <> batch_key f -> find_batch (add_record f d) b = find_batch d b)
  /\ (forall b c,
        b <> batch_key f \/ ~ In c (map key (categories_to_add f)) ->
        find_category (add_record f d) b c = find_category d b c)
  /\ (forall b c t,
        b <> batch_key f \/ ~ In c (map key (categories_to_add f))
        \/ t <> text_key f ->
        find_text (add_record f d) b c t = find_text d b c t).
Proof.
  split; [|split].
  - intros b Hb. rewrite get_add_record.
    apply String.eqb_neq in Hb. now rewrite Hb.
  - intros b c H. rewrite !find_category_unfold, get_add_record.
    destruct (String.eqb_spec b (batch_key f)) as [->|]; [|reflexivity].
    destruct H as [H | H]; [now destruct H|].
    simpl. unfold categories_step. rewrite (get_fold_other _ _ _ H).
    unfold batch_or_new, find_batch.
    now destruct (Dict.get (batch_key f) (batches d)).
  - intros b c t H. rewrite !find_text_unfold, get_add_record.
    destruct (String.eqb_spec b (batch_key f)) as [->|]; [|reflexivity].
    destruct H as [H | H]; [now destruct H|].
    simpl. unfold categories_step. rewrite (get_text_fold_other _ _ _ _ H).
    unfold batch_or_new, find_batch.
    now destruct (Dict.get (batch_key f) (batches d)).
Qed.

End Frame.

(** ** The empty input *)

Section EmptyInput.

Lemma count_playlists_no_batches (d : Document) :
  batches d = [] -> count_playlists d = 0.
Proof. unfold count_playlists. now intros ->. Qed.

(** A finished document has no batch exactly when the input has no row;
    an input of the header alone is no error. *)
Theorem no_batches_iff_no_rows (today : string) (rows : list Row)
  (data : Document) :
  build_data today rows = Ok data ->
  (batches data = [] <-> rows = [])
  /\ build_data today [] = Ok (with_metadata
                                (mkMetadata 0 0 0 0 "v3" 3600 "daily")
                                (initial_data today)).
Proof.
  intros H. split; [|reflexivity].
  destruct (build_data_Ok _ _ _ H) as (fs & Hfs & ->). split.
  - intros E.
    change (batches (add_records fs (initial_data today)) = []) in E.
    apply count_playlists_no_batches in E.
    rewrite count_playlists_add_records in E.
    pose proof (read_rows_length rows fs Hfs) as L.
    destruct rows; [reflexivity | simpl in L; lia].
  - intros ->. simpl in Hfs. injection Hfs as <-. reflexivity.
Qed.

Lemma no_batches_iff_no_rows_witness :
  exists data,
    build_data "2026-01-01" [] = Ok data
    /\ (batches data = [] <-> @nil Row = [])
    /\ build_data "2026-01-01" []
       = Ok (with_metadata (mkMetadata 0 0 0 0 "v3" 3600 "daily")
               (initial_data "2026-01-01")).
Proof.
  eexists. split; [reflexivity|].
  apply (no_batches_iff_no_rows "2026-01-01" []). reflexivity.
Defined.

End EmptyInput.

(** ** The further properties at sample inputs *)

Lemma get_batch_info_fallback_witness :
  info_description (get_batch_info "tattvamasi") = ""
  /\ info_name (get_batch_info "tattvamasi") = "tattvamasi".
Proof.
  destruct (get_batch_info_fallback "tattvamasi") as [[_ H1] H2].
  assert (info_description (get_batch_info "tattvamasi") = "") as E.
  { apply H1. simpl. intuition discriminate. }
  split; [exact E | exact (H2 E)].
Defined.

Lemma get_category_info_fallback_witness :
  info_description (get_category_info "Bhagavad Gita") = ""
  /\ info_name (get_category_info "Bhagavad Gita") = "Bhagavad Gita".
Proof.
  destruct (get_category_info_fallback "Bhagavad Gita") as [[_ H1] H2].
  assert (info_description (get_category_info "Bhagavad Gita") = "") as E.
  { apply H1. simpl. intuition discriminate. }
  split; [exact E | exact (H2 E)].
Defined.

Lemma add_record_touches_only_its_keys_witness :
  find_batch
    (add_record fields_katha (add_record fields_blank_count
                                (initial_data "2026-01-01"))) "jignasu"
  = find_batch (add_record fields_blank_count (initial_data "2026-01-01"))
      "jignasu"
  /\ find_text
       (add_record fields_katha (add_record fields_katha
                                   (initial_data "2026-01-01")))
       "tattvamasi" "upanishad" "kena_upanishad"
     = find_text (add_record fields_katha (initial_data "2026-01-01"))
         "tattvamasi" "upanishad" "kena_upanishad".
Proof.
  split.
  - apply (proj1 (add_record_touches_only_its_keys fields_katha _)).
    discriminate.
  - apply (proj2 (proj2 (add_record_touches_only_its_keys fields_katha _))).
    right. right. discriminate.
Defined.

(** * The key normalizer on strings of any code points *)

Section UniStrip.

Lemma uni_rstrip_idem (s : Uni.str) : Uni.rstrip (Uni.rstrip s) = Uni.rstrip s.
Proof.
  induction s as [|c s IH]; simpl; [reflexivity|].
  destruct (Uni.rstrip s) as [|c' r] eqn:E.
  - destruct (Uni.isspace c) eqn:Ec; simpl; [reflexivity | now rewrite Ec].
  - simpl in *. now rewrite IH.
Qed.

Lemma uni_lstrip_head (s : Uni.str) :
  match Uni.lstrip s with
  | [] => True
  | c :: _ => Uni.isspace c = false
  end.
Proof.
  induction s as [|c s IH]; simpl; [exact I|].
  destruct (Uni.isspace c) eqn:E; [exact IH | exact E].
Qed.

Lemma uni_rstrip_head (c : N) (s : Uni.str) :
  Uni.isspace c = false ->
  Uni.rstrip (c :: s) = c :: Uni.rstrip s.
Proof. intros H. simpl. rewrite H. now destruct (Uni.rstrip s). Qed.

Lemma uni_strip_idem (s : Uni.str) : Uni.strip (Uni.strip s) = Uni.strip s.
Proof.
  unfold Uni.strip. pose proof (uni_lstrip_head s) as H.
  destruct (Uni.lstrip s) as [|c r]; [reflexivity|].
  rewrite (uni_rstrip_head c r H). simpl Uni.lstrip. rewrite H.
  rewrite (uni_rstrip_head c _ H). now rewrite uni_rstrip_idem.
Qed.






Lemma Forall_uni_lstrip (P : N -> Prop) (s : Uni.str) :
  Forall P s -> Forall P (Uni.lstrip s).
Proof.
  induction 1 as [|c s Hc Hs IH]; simpl; [constructor|].
  destruct (Uni.isspace c); [exact IH | now constructor].
Qed.

Lemma Forall_uni_rstrip (P : N -> Prop) (s : Uni.str) :
  Forall P s -> Forall P (Uni.rstrip s).
Proof.
  induction 1 as [|c s Hc Hs IH]; simpl; [constructor|].
  destruct (Uni.rstrip s) as [|c' r].
  - destruct (Uni.isspace c); repeat constructor. exact Hc.
  - now constructor.
Qed.

Lemma Forall_uni_strip (P : N -> Prop) (s : Uni.str) :
  Forall P s -> Forall P (Uni.strip s).
Proof. intros H. now apply Forall_uni_rstrip, Forall_uni_lstrip. Qed.

End UniStrip.

Section UniKeys.

Variable T : Uni.casing.

Lemma uni_replace_Forall (P : N -> Prop) (old : N) (new s : Uni.str) :
  Forall P new -> Forall P s -> Forall P (Uni.replace old new s).
Proof.
  intros Hnew. induction 1 as [|c s Hc Hs IH]; simpl; [constructor|].
  apply Forall_app. split; [|exact IH].
  destruct (N.eqb c old); [exact Hnew | now constructor].
Qed.

Lemma uni_replace_absent (old : N) (new s : Uni.str) :
  ~ In old s -> Uni.replace old new s = s.
Proof.
  induction s as [|c s IH]; simpl; [reflexivity|]. intros H.
  destruct (N.eqb_spec c old) as [->|_]; [destruct H; now left|].
  simpl. rewrite IH; [reflexivity | intros Hin; apply H; now right].
Qed.

(** The four replacements are one rewriting of each code point. *)
Lemma uni_replace_chain (s : Uni.str) :
  Uni.replace 46 [] (Uni.replace 124 [] (Uni.replace 45 [95%N]
    (Uni.replace 32 [95%N] s)))
  = List.flat_map Uni.key_of_char s.
Proof.
  induction s as [|c s IH]; [reflexivity|].
  change (c :: s) with ([c] ++ s).
  unfold Uni.replace in *. rewrite !List.flat_map_app, IH. f_equal.
  unfold Uni.key_of_char. simpl.
  destruct (N.eqb_spec c 32) as [->|H32]; [reflexivity|].
  simpl. destruct (N.eqb_spec c 45) as [->|H45]; [reflexivity|].
  simpl. destruct (N.eqb_spec c 124) as [->|H124]; [reflexivity|].
  simpl. destruct (N.eqb_spec c 46) as [->|H46]; reflexivity.
Qed.

Lemma normalize_key_rewrite (name : Uni.str) :
  Uni.normalize_key T name
  = Uni.strip (List.flat_map Uni.key_of_char (Uni.lower T name)).
Proof. unfold Uni.normalize_key. now rewrite uni_replace_chain. Qed.

Lemma key_of_char_In (c x : N) :
  In x (Uni.key_of_char c) ->
  (x = c \/ x = 95%N) /\ x <> 32%N /\ x <> 45%N /\ x <> 124%N /\ x <> 46%N.
Proof.
  unfold Uni.key_of_char.
  destruct (N.eqb_spec c 32) as [->|H32]; simpl.
  - intros [<- | []]. repeat split; auto; discriminate.
  - destruct (N.eqb_spec c 45) as [->|H45]; simpl.
    + intros [<- | []]. repeat split; auto; discriminate.
    + destruct (N.eqb_spec c 124) as [->|H124]; simpl; [intros []|].
      destruct (N.eqb_spec c 46) as [->|H46]; simpl; [intros []|].
      intros [<- | []]. repeat split; auto.
Qed.

Lemma key_of_char_absent (s : Uni.str) :
  ~ In 32%N s -> ~ In 45%N s -> ~ In 124%N s -> ~ In 46%N s ->
  List.flat_map Uni.key_of_char s = s.
Proof.
  induction s as [|c s IH]; [reflexivity|]. simpl. intros H1 H2 H3 H4.
  rewrite IH by tauto. unfold Uni.key_of_char.
  destruct (N.eqb_spec c 32) as [->|_]; [tauto|].
  destruct (N.eqb_spec c 45) as [->|_]; [tauto|].
  destruct (N.eqb_spec c 124) as [->|_]; [tauto|].
  destruct (N.eqb_spec c 46) as [->|_]; [tauto | reflexivity].
Qed.

Lemma normalize_key_members (name : Uni.str) :
  Forall (fun x => (In x (Uni.lower T name) \/ x = 95%N)
                   /\ x <> 32%N /\ x <> 45%N /\ x <> 124%N /\ x <> 46%N)
    (Uni.normalize_key T name).
Proof.
  rewrite normalize_key_rewrite. apply Forall_uni_strip.
  apply Forall_forall. intros x Hx.
  apply in_flat_map in Hx as (c & Hc & Hx).
  destruct (key_of_char_In c x Hx) as ([-> | ->] & R); auto.
Qed.


Hypothesis stable_table : Uni.lowercase_stable T.

Lemma lower_from_stable (s : Uni.str) :
  forall before, Forall (Uni.stable T) (Uni.lower_from T before s).
Proof.
  destruct stable_table as (_ & Hf & Hs & Ht).
  induction s as [|c s IH]; intros before; simpl; [constructor|].
  apply Forall_app. split; [|apply IH].
  destruct (N.eqb_spec c Uni.capital_sigma) as [->|Hc].
  - constructor; [|constructor]. unfold Uni.lower_sigma.
    match goal with |- context [if ?b then _ else _] => destruct b end;
      assumption.
  - apply Forall_forall. intros c' Hc'. now apply (Ht c).
Qed.

Lemma lower_from_fixed (s : Uni.str) :
  Forall (Uni.stable T) s -> forall before, Uni.lower_from T before s = s.
Proof.
  induction 1 as [|c s [Hc Hn] Hs IH]; intros before; simpl; [reflexivity|].
  apply N.eqb_neq in Hn. rewrite Hn, Hc, IH. reflexivity.
Qed.

Lemma key_of_char_stable (s : Uni.str) :
  Forall (Uni.stable T) s ->
  Forall (Uni.stable T) (List.flat_map Uni.key_of_char s).
Proof.
  destruct stable_table as (Hu & _).
  intros H. apply Forall_forall. intros x Hx.
  apply in_flat_map in Hx as (c & Hc & Hx).
  destruct (key_of_char_In c x Hx) as ([-> | ->] & _); [|exact Hu].
  rewrite Forall_forall in H. now apply H.
Qed.

Lemma normalize_key_stable (name : Uni.str) :
  Forall (Uni.stable T) (Uni.normalize_key T name).
Proof.
  rewrite normalize_key_rewrite.
  apply Forall_uni_strip, key_of_char_stable, lower_from_stable.
Qed.

(** C3: normalize_key (normalize_key s) = normalize_key s, for every
    string of code points. *)
Theorem normalize_key_idempotent_everywhere (s : Uni.str) :
  Uni.normalize_key T (Uni.normalize_key T s) = Uni.normalize_key T s.
Proof.
  pose proof (normalize_key_members s) as H. rewrite Forall_forall in H.
  rewrite (normalize_key_rewrite (Uni.normalize_key T s)).
  unfold Uni.lower.
  rewrite (lower_from_fixed _ (normalize_key_stable s)).
  rewrite key_of_char_absent;
    try (intros Hin; destruct (H _ Hin) as (_ & ? & ? & ? & ?); congruence).
  rewrite normalize_key_rewrite. apply uni_strip_idem.
Qed.

(** The key does not depend on the letter case of the name: the lowercase
    of the name has the key of the name. *)
Theorem normalize_key_ignores_case (s : Uni.str) :
  Uni.normalize_key T (Uni.lower T s) = Uni.normalize_key T s.
Proof.
  rewrite !normalize_key_rewrite. unfold Uni.lower at 1.
  now rewrite (lower_from_fixed _ (lower_from_stable s [])).
Qed.

End UniKeys.

Section UniLatin1.

Lemma latin1_stable : Uni.lowercase_stable Uni.latin1.
Proof.
  unfold Uni.lowercase_stable, Uni.stable.
  split; [split; [reflexivity | discriminate]|].
  split; [split; [reflexivity | discriminate]|].
  split; [split; [reflexivity | discriminate]|].
  intros c c' Hc. unfold Uni.latin1, Uni.to_lower_full, Uni.within,
    Uni.capital_sigma, Uni.small_sigma in *.
  destruct (N.leb_spec 65 c), (N.leb_spec c 90), (N.leb_spec 192 c),
    (N.leb_spec c 222), (N.eqb_spec c 215), (N.eqb_spec c 931);
    simpl; intros [<- | []]; try lia;
    repeat match goal with
      | |- context [N.leb ?a ?b] => destruct (N.leb_spec a b); try lia
      | |- context [N.eqb ?a ?b] => destruct (N.eqb_spec a b); try lia
      end; simpl; (split; [reflexivity | lia]).
Qed.

Lemma normalize_key_idempotent_everywhere_witness :
  Uni.lowercase_stable Uni.latin1
  /\ Uni.normalize_key Uni.latin1
       (Uni.normalize_key Uni.latin1 (codes " Dr. A-B|c "))
     = Uni.normalize_key Uni.latin1 (codes " Dr. A-B|c ").
Proof.
  split; [exact latin1_stable|].
  exact (normalize_key_idempotent_everywhere Uni.latin1 latin1_stable
           (codes " Dr. A-B|c ")).
Defined.

Lemma normalize_key_ignores_case_witness :
  Uni.lowercase_stable Uni.latin1
  /\ Uni.normalize_key Uni.latin1 (Uni.lower Uni.latin1 (codes "Katha U."))
     = Uni.normalize_key Uni.latin1 (codes "Katha U.").
Proof.
  split; [exact latin1_stable|].
  exact (normalize_key_ignores_case Uni.latin1 latin1_stable
           (codes "Katha U.")).
Defined.


(** On strings of code points below 256 the two models of the normalizer
    agree. *)

Lemma codes_app (a b : string) : codes (a ++ b) = codes a ++ codes b.
Proof. induction a as [|c a IH]; simpl; [reflexivity | now rewrite IH]. Qed.

Lemma codes_lower_char (c : ascii) :
  N.eqb (N_of_ascii c) Uni.capital_sigma = false
  /\ Uni.to_lower_full Uni.latin1 (N_of_ascii c)
     = [N_of_ascii (Str.lower_char c)].
Proof.
  destruct c as [[] [] [] [] [] [] [] []]; vm_compute; split; reflexivity.
Qed.

Lemma codes_lower (s : string) :
  forall before,
    Uni.lower_from Uni.latin1 before (codes s) = codes (Str.lower s).
Proof.
  induction s as [|c s IH]; intros before; [reflexivity|].
  destruct (codes_lower_char c) as [E1 E2].
  cbn [codes Uni.lower_from]. rewrite E1, E2, IH. reflexivity.
Qed.

Lemma codes_eqb (c old : ascii) :
  N.eqb (N_of_ascii c) (N_of_ascii old) = Ascii.eqb c old.
Proof.
  destruct (Ascii.eqb_spec c old) as [->|H]; [apply N.eqb_refl|].
  apply N.eqb_neq. intros E. apply H.
  now rewrite <- (ascii_N_embedding c), <- (ascii_N_embedding old), E.
Qed.

Lemma codes_replace (old : ascii) (new s : string) :
  codes (Str.replace old new s)
  = Uni.replace (N_of_ascii old) (codes new) (codes s).
Proof.
  unfold Str.replace, Uni.replace.
  induction s as [|c s IH]; [reflexivity|].
  cbn [Str.flat_map codes List.flat_map].
  rewrite codes_app, IH, codes_eqb. now destruct (Ascii.eqb c old).
Qed.

Lemma codes_isspace (c : ascii) : Uni.isspace (N_of_ascii c) = Str.isspace c.
Proof. destruct c as [[] [] [] [] [] [] [] []]; vm_compute; reflexivity. Qed.

Lemma codes_lstrip (s : string) :
  codes (Str.lstrip s) = Uni.lstrip (codes s).
Proof.
  induction s as [|c s IH]; [reflexivity|].
  cbn [Str.lstrip codes Uni.lstrip]. rewrite codes_isspace.
  now destruct (Str.isspace c).
Qed.

Lemma codes_rstrip (s : string) :
  codes (Str.rstrip s) = Uni.rstrip (codes s).
Proof.
  induction s as [|c s IH]; [reflexivity|].
  cbn [Str.rstrip codes Uni.rstrip]. rewrite <- IH, codes_isspace.
  destruct (Str.rstrip s) as [|c' r]; simpl;
    now destruct (Str.isspace c).
Qed.

(** [normalize_key] of the model on characters below 256 is the normalizer
    on code points with the tables of that range. *)
Lemma codes_normalize_key (s : string) :
  codes (normalize_key s) = Uni.normalize_key Uni.latin1 (codes s).
Proof.
  unfold normalize_key, Uni.normalize_key, Str.strip, Uni.strip, Uni.lower.
  now rewrite codes_rstrip, codes_lstrip, !codes_replace, codes_lower.
Qed.

End UniLatin1.

(** ** Where the keys come from *)

Section KeysFromRows.

Lemma text_key_from_fields (today : string) (fs : list Fields)
  (b c t : string) (z : Text) :
  find_text (add_records fs (initial_data today)) b c t = Some z ->
  exists f,
    In f fs /\ b = batch_key f /\ t = text_key f
    /\ (c = natural_category_key f \/ (is_ongoing f = true /\ c = "ongoing")).
Proof.
  intros H.
  pose proof (add_records_inv nothing_empty nothing_empty_step fs _
                (initial_nothing_empty today)) as (_ & _ & Et).
  pose proof (Et b c t z H) as Hne.
  pose proof (playlists_at_add_records fs (initial_data today) b c t) as E.
  rewrite (playlists_at_find_text _ _ _ _ _ H) in E. simpl in E.
  destruct (playlists z) as [|p ps]; [easy|].
  assert (In p (List.flat_map (entries_for b c t) fs)) as Hp
    by (rewrite <- E; now left).
  apply in_flat_map in Hp as (f & Hf & Hp).
  apply In_entries_for in Hp as (-> & -> & (tg & Hin & ->) & _).
  exists f. repeat split; auto. now apply target_keys.
Qed.

(** Every key of a finished document is the key of a name in some row of
    the input: a batch key is [normalize_key] of the row's batch name, a
    text key of its text name, a category key of its category name or,
    when the row is ongoing, "ongoing"; and a category or text lies under
    the batch key, and a text under a category key, of that same row. *)
Theorem finished_keys_from_rows (today : string) (rows : list Row)
  (data : Document) :
  build_data today rows = Ok data ->
  (forall b x,
      find_batch data b = Some x ->
      exists row f,
        In row rows /\ read_row row = Ok f /\ b = batch_key f)
  /\ (forall b c y,
        find_category data b c = Some y ->
        exists row f,
          In row rows /\ read_row row = Ok f /\ b = batch_key f
          /\ (c = natural_category_key f
              \/ (is_ongoing f = true /\ c = "ongoing")))
  /\ (forall b c t z,
        find_text data b c t = Some z ->
        exists row f,
          In row rows /\ read_row row = Ok f /\ b = batch_key f
          /\ (c = natural_category_key f
              \/ (is_ongoing f = true /\ c = "ongoing"))
          /\ t = text_key f).
Proof.
  intros H. destruct (build_data_Ok _ _ _ H) as (fs & Hfs & ->).
  set (d := add_records fs (initial_data today)).
  pose proof (add_records_inv nothing_empty nothing_empty_step fs _
                (initial_nothing_empty today)) as (Eb & Ec & _).
  fold d in Eb, Ec.
  assert (forall b c t z,
             find_text d b c t = Some z ->
             exists row f,
               In row rows /\ read_row row = Ok f /\ b = batch_key f
               /\ (c = natural_category_key f
                   \/ (is_ongoing f = true /\ c = "ongoing"))
               /\ t = text_key f) as HT.
  { intros b c t z Hz.
    destruct (text_key_from_fields today fs b c t z Hz)
      as (f & Hf & Hb & Ht & Hc).
    destruct (read_rows_In rows fs f Hfs Hf) as (row & Hrow & E).
    exists row, f. auto 6. }
  assert (forall b c y,
             find_category d b c = Some y ->
             exists row f,
               In row rows /\ read_row row = Ok f /\ b = batch_key f
               /\ (c = natural_category_key f
                   \/ (is_ongoing f = true /\ c = "ongoing"))) as HC.
  { intros b c y Hy.
    destruct (nonempty_has_key _ (Ec b c y Hy)) as (t & z & Hz).
    assert (find_text d b c t = Some z) as Hz'
      by (unfold find_text; now rewrite Hy).
    destruct (HT b c t z Hz') as (row & f & R1 & R2 & R3 & R4 & _).
    exists row, f. auto. }
  split; [|split; [exact HC | exact HT]].
  intros b x Hx. change (find_batch d b = Some x) in Hx.
  destruct (nonempty_has_key _ (Eb b x Hx)) as (c & y & Hy).
  assert (find_category d b c = Some y) as Hy'
    by (unfold find_category; now rewrite Hx).
  destruct (HC b c y Hy') as (row & f & R1 & R2 & R3 & _).
  exists row, f. auto.
Qed.

Lemma finished_keys_from_rows_witness :
  exists data,
    build_data "2026-01-01" [row_katha; row_blank_count] = Ok data
    /\ (forall b x,
          find_batch data b = Some x ->
          exists row f,
            In row [row_katha; row_blank_count] /\ read_row row = Ok f
            /\ b = batch_key f)
    /\ (forall b c y,
          find_category data b c = Some y ->
          exists row f,
            In row [row_katha; row_blank_count] /\ read_row row = Ok f
            /\ b = batch_key f
            /\ (c = natural_category_key f
                \/ (is_ongoing f = true /\ c = "ongoing")))
    /\ (forall b c t z,
          find_text data b c t = Some z ->
          exists row f,
            In row [row_katha; row_blank_count] /\ read_row row = Ok f
            /\ b = batch_key f
            /\ (c = natural_category_key f
                \/ (is_ongoing f = true /\ c = "ongoing"))
            /\ t = text_key f).
Proof.
  eexists. split; [vm_compute; reflexivity|].
  apply (finished_keys_from_rows "2026-01-01" [row_katha; row_blank_count]).
  reflexivity.
Defined.

End KeysFromRows.
